(** * http-pub-sub: the polling loop of [listenFrom]

    A shallow embedding of [src/index.js].  The asynchronous function
    [listenFrom] becomes a transition system: the state holds what the
    closure of the [setInterval] callback shares (the attempt counter, the
    interval timer, the promise returned to the caller), and the events are
    what the Node event loop delivers to it (a timer tick, the completion
    of a pending HTTP request).  Clock readings ([Date.now()]) and network
    results come with the events.

    Numbers.  JavaScript numbers are idealised as exact rationals ([Q]);
    the rounding, the infinities and the NaN of IEEE-754 doubles are
    outside this model.  Millisecond clock readings and the attempt counter
    are integers ([Z]).  The one place where the program computes with
    numbers taken from a response, the time checks on a message, is done
    again in binary64 (module [Binary64]). *)

From Stdlib Require Import ZArith QArith Qround String Ascii List Bool Lia Lqa.
From Stdlib Require Import DecimalString SpecFloat.
Import ListNotations.

Set Warnings "-register-all".
Local Open Scope string_scope.

(** ** The JavaScript fragment the program uses *)

Module Js.

(** Values: the JSON values, [undefined], and [VNative] for the members
    that built-in prototypes bring (functions such as [toString]). *)
Inductive value : Type :=
| VUndefined
| VNull
| VBool (b : bool)
| VNum (q : Q)
| VStr (s : string)
| VArr (elems : list value)
| VObj (props : list (string * value))
| VNative.

(** What an expression evaluates to: a value, or a thrown [Error] of which
    the program only ever reads [.message]. *)
Inductive completion (A : Type) : Type :=
| Normal (a : A)
| Throw (message : string).
Arguments Normal {A} a.
Arguments Throw {A} message.

(** ToBoolean. *)
Definition truthy (v : value) : bool :=
  match v with
  | VUndefined | VNull => false
  | VBool b => b
  | VNum q => negb (Qeq_bool q 0)
  | VStr s => negb (s =? "")
  | VArr _ | VObj _ | VNative => true
  end.

Definition typeof (v : value) : string :=
  match v with
  | VUndefined => "undefined"
  | VNull | VArr _ | VObj _ => "object"
  | VBool _ => "boolean"
  | VNum _ => "number"
  | VStr _ => "string"
  | VNative => "function"
  end.

(** [v !== s] where the right operand is known to be the string [s]. *)
Definition strict_neq_string (v : value) (s : string) : bool :=
  match v with
  | VStr s' => negb (s' =? s)
  | _ => true
  end.

(** [hay.includes(needle)]. *)
Fixpoint includes (hay needle : string) : bool :=
  if String.prefix needle hay then true
  else match hay with
       | EmptyString => false
       | String _ rest => includes rest needle
       end.

(** [Math.floor] and [Math.round] (half-way cases round up). *)
Definition Math_floor (x : Q) : Z := Qfloor x.
Definition Math_round (x : Q) : Z := Qfloor (x + (1 # 2)).

(** [`${n}`] for an integer. *)
Definition show_int (n : Z) : string := NilZero.string_of_int (Z.to_int n).

(** Messages of the [TypeError]s that V8 raises on [null]. *)
Definition TypeError_read_of_null (k : string) : string :=
  "Cannot read properties of null (reading '" ++ k ++ "')".
Definition TypeError_read_of_undefined (k : string) : string :=
  "Cannot read properties of undefined (reading '" ++ k ++ "')".
Definition TypeError_keys_of_null : string :=
  "Cannot convert undefined or null to object".

(** Own properties of a parsed object, in source order. *)
Fixpoint own (props : list (string * value)) (k : string) : option value :=
  match props with
  | [] => None
  | (k', v) :: rest => if k' =? k then Some v else own rest k
  end.

(** A property name that is a canonical array index. *)
Definition array_index (k : string) : option nat :=
  match NilEmpty.uint_of_string k with
  | Some u =>
      let n := Nat.of_uint u in
      if NilEmpty.string_of_uint (Nat.to_uint n) =? k then Some n else None
  | None => None
  end.

Section Members.

(** What a value inherits from the built-in prototypes (and, for strings,
    its characters and length): [VUndefined] when there is no such member.
    The table belongs to the engine, so it is left open. *)
Variable proto : value -> string -> value.

(** [v[k]]. *)
Definition get (v : value) (k : string) : completion value :=
  match v with
  | VUndefined => Throw (TypeError_read_of_undefined k)
  | VNull => Throw (TypeError_read_of_null k)
  | VObj props =>
      match own props k with
      | Some x => Normal x
      | None => Normal (proto v k)
      end
  | VArr elems =>
      match array_index k with
      | Some i =>
          match nth_error elems i with
          | Some x => Normal x
          | None => Normal (proto v k)
          end
      | None => Normal (proto v k)
      end
  | _ => Normal (proto v k)
  end.

(** [v.k] at a place where [v] is known to be neither [null] nor
    [undefined], so that the read cannot throw. *)
Definition prop (v : value) (k : string) : value :=
  match get v k with
  | Normal x => x
  | Throw _ => VUndefined
  end.

End Members.

(** [Object.keys(v)], of which only the failure matters (the result is
    printed). *)
Definition Object_keys (v : value) : completion unit :=
  match v with
  | VUndefined | VNull => Throw TypeError_keys_of_null
  | _ => Normal tt
  end.

(** A response body, seen through [JSON.parse]: the text of a JSON value,
    or a text that [JSON.parse] refuses with a [SyntaxError] carrying the
    given message. *)
Inductive body : Type :=
| Json (v : value)
| NotJson (syntaxError : string).

Definition JSON_parse (b : body) : completion value :=
  match b with
  | Json v => Normal v
  | NotJson m => Throw m
  end.

(** The members of [Object.prototype], as an instance of the table. *)
Definition Object_prototype (_ : value) (k : string) : value :=
  if existsb (String.eqb k)
       ["constructor"; "__proto__"; "hasOwnProperty"; "isPrototypeOf";
        "propertyIsEnumerable"; "toLocaleString"; "toString"; "valueOf"]
  then VNative else VUndefined.

End Js.

(** ** The program *)

Module HttpPubSub.
Import Js.

(** The [options] argument.  The properties that the function checks at
    run time are arbitrary values; the others have the types that the
    documentation comment of [listenFrom] gives them, [None] standing for
    an absent property. *)
Record options : Type := {
  opt_type : value;
  opt_timeout : value;
  opt_retroBack : value;
  opt_interval : option Q;
  opt_debug : bool;
  opt_endpoint : option string;
  opt_headers : option (list (string * string));
  opt_requestTimeout : option Z
}.

(** The [config] object, once the arguments have been accepted. *)
Record config : Type := {
  interval : Q;
  debug : bool;
  endpoint : string;
  headers : list (string * string);
  requestTimeout : Z;
  type : string;
  timeout : Q;
  retroBack : Q
}.

(** [x || d] for an optional number, an optional string. *)
Definition number_or (x : option Q) (d : Q) : Q :=
  match x with
  | Some q => if Qeq_bool q 0 then d else q
  | None => d
  end.

Definition int_or (x : option Z) (d : Z) : Z :=
  match x with
  | Some n => if (n =? 0)%Z then d else n
  | None => d
  end.

Definition string_or (x y : option string) : option string :=
  match x with
  | Some s => if s =? "" then y else x
  | None => y
  end.

Definition as_string (v : value) : string :=
  match v with VStr s => s | _ => "" end.

Definition as_number (v : value) : Q :=
  match v with VNum q => q | _ => 0 end.

(** [x < y] on numbers. *)
Definition Qlt_bool (x y : Q) : bool := negb (Qle_bool y x).

(** The interval after [options.interval || 10] and the minimum check. *)
Definition effective_interval (x : option Q) : Q :=
  let i := number_or x 10 in
  if Qlt_bool i 1 then 1 else i.

(** [listenFrom] up to the creation of the promise, lines 26 to 64: the
    message of the error thrown, or the key and the configuration that the
    polling loop closes over.  [env] is
    [process.env.HTTP_PUB_SUB_ENDPOINT].  What this part prints under
    [debug] is left out. *)
Definition listenFrom (env : option string) (key : value) (o : options)
  : string + (string * config) :=
  if negb (truthy key) || negb (typeof key =? "string") then
    inl "Key deve ser uma string não vazia"
  else if negb (truthy (opt_type o)) || negb (typeof (opt_type o) =? "string") then
    inl "options.type deve ser uma string não vazia"
  else if negb (truthy (opt_timeout o)) || negb (typeof (opt_timeout o) =? "number") then
    inl "options.timeout deve ser um número maior que 0"
  else if negb (truthy (opt_retroBack o)) || negb (typeof (opt_retroBack o) =? "number") then
    inl "options.retroBack deve ser um número maior que 0"
  else
    match string_or (opt_endpoint o) env with
    | None => inl "Endpoint HTTP não definido. Configure a variável de ambiente HTTP_PUB_SUB_ENDPOINT ou passe via options.endpoint"
    | Some e =>
        if e =? "" then inl "Endpoint HTTP não definido. Configure a variável de ambiente HTTP_PUB_SUB_ENDPOINT ou passe via options.endpoint"
        else
          inr (as_string key,
               {| interval := effective_interval (opt_interval o);
                  debug := opt_debug o;
                  endpoint := e;
                  headers := match opt_headers o with Some h => h | None => [] end;
                  requestTimeout := int_or (opt_requestTimeout o) 5000;
                  type := as_string (opt_type o);
                  timeout := as_number (opt_timeout o);
                  retroBack := as_number (opt_retroBack o) |})
    end.

(** *** The HTTP fetcher *)

(** What the network does with one request. *)
Inductive network : Type :=
| Response (statusCode : Z) (statusMessage : string) (data : body)
| SocketError (message : string)
| SocketTimeout.

(** [makeHttpRequest]: the body the promise resolves with, or the message
    of the [Error] it is rejected with. *)
Definition makeHttpRequest (timeout : Z) (n : network) : completion body :=
  match n with
  | Response statusCode statusMessage data =>
      if ((200 <=? statusCode) && (statusCode <? 300))%Z then Normal data
      else Throw ("HTTP " ++ show_int statusCode ++ ": " ++ statusMessage)
  | SocketError message => Throw ("Erro de rede: " ++ message)
  | SocketTimeout => Throw ("Timeout da requisição (" ++ show_int timeout ++ "ms)")
  end.

(** *** The polling loop *)

Inductive outcome : Type :=
| Success (data meta : value) (elapsedTime : Q) (attempts : Z)
| Timeout (elapsedTime : Q) (attempts : Z).

(** How the promise that [listenFrom] returns is settled. *)
Inductive settlement : Type :=
| Resolved (o : outcome)
| Rejected (message : string).

(** The lines that [debug] prints, by the place that prints them. *)
Inductive trace : Type :=
| LogAttempt (n : Z)
| LogKeys
| LogNotFound
| LogInvalid
| LogTypeMismatch
| LogExpired
| LogRetroBack
| LogFound
| LogError (message : string).

(** What one run of the callback does to the outside, in order. *)
Inductive action : Type :=
| Fetch (url : string) (hs : list (string * string)) (ms : Z)
| Print (t : trace).

(** What the callback shares between its runs.  [timer] says whether the
    interval is still registered, [pending] counts the requests awaited,
    [promise] is [None] while the call is pending. *)
Record state : Type := {
  attempts : Z;
  timer : bool;
  pending : nat;
  promise : option settlement
}.

(** The state when the promise is created.  No request is started before
    the first firing of the interval: the [setTimeout] of line 188 runs an
    empty function. *)
Definition initial : state :=
  {| attempts := 0; timer := true; pending := 0; promise := None |}.

Definition clearInterval (s : state) : state :=
  {| attempts := attempts s; timer := false; pending := pending s;
     promise := promise s |}.

(** [resolve] and [reject]: a promise settles once, later calls do
    nothing. *)
Definition settle (r : settlement) (s : state) : state :=
  match promise s with
  | None => {| attempts := attempts s; timer := timer s; pending := pending s;
               promise := Some r |}
  | Some _ => s
  end.

(** [Math.round(ms / 1000 * 10) / 10]. *)
Definition elapsedTime_of (ms : Z) : Q :=
  inject_Z (Math_round (inject_Z ms / 1000 * 10)) / 10.

(** What the [try] block comes to, after the request has completed. *)
Inductive verdict : Type :=
| Continue
| Found (data meta : value)
| Raised (message : string).

Section Call.

Variable proto : value -> string -> value.
Variable key : string.
Variable cfg : config.
Variable startTime : Z.

Definition timeoutMs : Q := timeout cfg * 1000.

Definition say (t : trace) : list action :=
  if debug cfg then [Print t] else [].

(** The structure check of line 116. *)
Definition invalid_structure (message : value) : bool :=
  negb (truthy (prop proto message "type"))
  || negb (truthy (prop proto message "data"))
  || negb (truthy (prop proto message "meta"))
  || negb (typeof (prop proto (prop proto message "meta") "timestamp") =? "number")
  || negb (typeof (prop proto (prop proto message "meta") "expiration") =? "number").

(** The checks on a message that is present, lines 113 to 152; [clock] is
    the reading of [Date.now()] on line 133. *)
Definition examine (clock : Z) (message : value) : verdict * list action :=
  if invalid_structure message then (Continue, say LogInvalid)
  else if strict_neq_string (prop proto message "type") (type cfg) then
    (Continue, say LogTypeMismatch)
  else
    let now := Math_floor (inject_Z clock / 1000) in
    let messageTime := as_number (prop proto (prop proto message "meta") "timestamp") in
    let expirationTime :=
      messageTime + as_number (prop proto (prop proto message "meta") "expiration") in
    if Qlt_bool expirationTime (inject_Z now) then (Continue, say LogExpired)
    else
      let retroBackLimit := inject_Z now - retroBack cfg in
      if Qlt_bool messageTime retroBackLimit then (Continue, say LogRetroBack)
      else (Found (prop proto message "data") (prop proto message "meta"), say LogFound).

(** The [try] block from the completion of the request on, lines 98 to
    169. *)
Definition attempt (n : network) (clock : Z) : verdict * list action :=
  match makeHttpRequest (requestTimeout cfg) n with
  | Throw m => (Raised m, [])
  | Normal response =>
      match JSON_parse response with
      | Throw m => (Raised m, [])
      | Normal messages =>
          match (if debug cfg then Object_keys messages else Normal tt) with
          | Throw m => (Raised m, [])
          | Normal _ =>
              match get proto messages key with
              | Throw m => (Raised m, say LogKeys)
              | Normal message =>
                  if negb (truthy message) then (Continue, (say LogKeys ++ say LogNotFound)%list)
                  else
                    let (v, out) := examine clock message in
                    (v, (say LogKeys ++ out)%list)
              end
          end
      end
  end.

(** Whether the [catch] block takes the error for a critical one. *)
Definition critical (message : string) : bool :=
  includes message "JSON" || includes message "parse".

(** One firing of the interval, up to the [await]: lines 77 to 98. *)
Definition on_tick (clock : Z) (s : state) : state * list action :=
  if negb (timer s) then (s, [])
  else
    let elapsed := (clock - startTime)%Z in
    if Qle_bool timeoutMs (inject_Z elapsed) then
      (settle (Resolved (Timeout (elapsedTime_of elapsed) (attempts s)))
              (clearInterval s), [])
    else
      let s' := {| attempts := attempts s + 1; timer := timer s;
                   pending := S (pending s); promise := promise s |} in
      (s', (say (LogAttempt (attempts s'))
            ++ [Fetch (endpoint cfg) (headers cfg) (requestTimeout cfg)])%list).

(** The rest of a firing, when its request completes: lines 98 to 184.
    [clock1] and [clock2] are the readings of [Date.now()] on lines 133
    and 157. *)
Definition on_completion (n : network) (clock1 clock2 : Z) (s : state)
  : state * list action :=
  match pending s with
  | O => (s, [])
  | S p =>
      let s0 := {| attempts := attempts s; timer := timer s; pending := p;
                   promise := promise s |} in
      match attempt n clock1 with
      | (Continue, out) => (s0, out)
      | (Found data meta, out) =>
          let finalElapsed := elapsedTime_of (clock2 - startTime) in
          (settle (Resolved (Success data meta finalElapsed (attempts s0)))
                  (clearInterval s0), out)
      | (Raised m, out) =>
          if critical m then
            (settle (Rejected ("Erro ao processar resposta: " ++ m))
                    (clearInterval s0), (out ++ say (LogError m))%list)
          else (s0, (out ++ say (LogError m))%list)
      end
  end.

(** What the event loop delivers to the call. *)
Inductive event : Type :=
| Tick (clock : Z)
| Completed (n : network) (clock1 clock2 : Z).

Definition step (e : event) (s : state) : state * list action :=
  match e with
  | Tick clock => on_tick clock s
  | Completed n clock1 clock2 => on_completion n clock1 clock2 s
  end.

(** A sequence of events, from a given state. *)
Fixpoint run (es : list event) (s : state) : state * list action :=
  match es with
  | [] => (s, [])
  | e :: rest =>
      let (s1, out1) := step e s in
      let (s2, out2) := run rest s1 in
      (s2, (out1 ++ out2)%list)
  end.

(** How many requests a sequence of actions starts. *)
Fixpoint fetches (out : list action) : nat :=
  match out with
  | [] => O
  | Fetch _ _ _ :: rest => S (fetches rest)
  | Print _ :: rest => fetches rest
  end.

End Call.

(** The interval is registered exactly as long as the call is pending. *)
Definition polling (s : state) : Prop := timer s = true <-> promise s = None.

(** [{ type: ty, data: d, meta: me }], as parsed. *)
Definition shaped (ty d me : value) : value :=
  VObj [("type", ty); ("data", d); ("meta", me)].

(** The configuration [c] with [debug] set to [d]. *)
Definition set_debug (d : bool) (c : config) : config :=
  {| interval := interval c; debug := d; endpoint := endpoint c;
     headers := headers c; requestTimeout := requestTimeout c; type := type c;
     timeout := timeout c; retroBack := retroBack c |}.

(** The event is the completion of a request with a 2xx response whose
    body is the JSON text [null]. *)
Definition answers_null (e : event) : bool :=
  match e with
  | Completed (Response sc _ (Json VNull)) _ _ => ((200 <=? sc) && (sc <? 300))%Z
  | Completed (Response sc _ (Json VUndefined)) _ _ => ((200 <=? sc) && (sc <? 300))%Z
  | _ => false
  end.

(** The requests awaited are among the requests counted. *)
Definition counted (s : state) : Prop := (Z.of_nat (pending s) <= attempts s)%Z.

(** *** The request that [makeHttpRequest] builds *)

(** A URL as [new URL(url)] parses it: [url_port] is empty when the URL
    names no port. *)
Record URL : Type := {
  url_protocol : string;
  url_hostname : string;
  url_port : string;
  url_pathname : string;
  url_search : string
}.

(** The module that sends the request. *)
Inductive client : Type := https | http.

(** Writing a property into an object literal: an existing property takes
    the new value where it stands, a new one goes last. *)
Fixpoint set_prop (k v : string) (props : list (string * string))
  : list (string * string) :=
  match props with
  | [] => [(k, v)]
  | (k', v') :: rest =>
      if k' =? k then (k, v) :: rest else (k', v') :: set_prop k v rest
  end.

(** [{ ...target, ...source }]. *)
Definition spread (target source : list (string * string)) : list (string * string) :=
  fold_left (fun t kv => set_prop (fst kv) (snd kv) t) source target.

(** Reading a property of such an object. *)
Fixpoint header (props : list (string * string)) (k : string) : option string :=
  match props with
  | [] => None
  | (k', v) :: rest => if k' =? k then Some v else header rest k
  end.

Module Request.

(** [requestOptions], lines 207 to 218. *)
Record requestOptions : Type := {
  hostname : string;
  port : string + Z;
  path : string;
  method : string;
  headers : list (string * string);
  timeout : Z
}.

Definition isHttps (parsedUrl : URL) : bool := url_protocol parsedUrl =? "https:".

Definition client_of (parsedUrl : URL) : client :=
  if isHttps parsedUrl then https else http.

Definition build (parsedUrl : URL) (hs : list (string * string)) (ms : Z)
  : requestOptions :=
  {| hostname := url_hostname parsedUrl;
     port := if url_port parsedUrl =? "" then
               inr (if isHttps parsedUrl then 443 else 80)%Z
             else inl (url_port parsedUrl);
     path := url_pathname parsedUrl ++ url_search parsedUrl;
     method := "GET";
     headers := spread [("User-Agent", "@felinto-dev/http-pub-sub");
                        ("Accept", "application/json")] hs;
     timeout := ms |}.

End Request.

(** *** Runs in which nothing settles *)

(** The character [c] does not occur in [s]. *)
Fixpoint absent (c : ascii) (s : string) : bool :=
  match s with
  | EmptyString => true
  | String x rest => negb (Ascii.eqb c x) && absent c rest
  end.

(** How many firings of the interval a sequence of events holds. *)
Fixpoint ticks (es : list event) : nat :=
  match es with
  | [] => O
  | Tick _ :: rest => S (ticks rest)
  | Completed _ _ _ :: rest => ticks rest
  end.

Section Quiet.

Variable proto : value -> string -> value.
Variable key : string.
Variable cfg : config.
Variable startTime : Z.

(** The event neither finds the budget used up, nor an acceptable
    message, nor an error that the [catch] block takes for critical. *)
Definition quiet (e : event) : bool :=
  match e with
  | Tick clock => negb (Qle_bool (timeoutMs cfg) (inject_Z (clock - startTime)))
  | Completed n clock1 _ =>
      match fst (attempt proto key cfg n clock1) with
      | Continue => true
      | Found _ _ => false
      | Raised m => negb (critical m)
      end
  end.

End Quiet.

End HttpPubSub.

(** ** A completion in the numbers of the program

    JavaScript numbers are IEEE-754 binary64.  The rational model above
    leaves their rounding, their infinities and their NaN out, which is
    harmless where numbers are only counted or compared with a clock, but
    not for the checks of lines 133 to 152, which add, subtract and
    compare numbers taken from the response.  This module is the
    completion of a request again, lines 98 to 184, with binary64 for the
    numbers ([spec_float] and its operations at precision 53 and maximal
    exponent 1024, the reference semantics of the hardware operations).
    The reported elapsed time is not at stake here and keeps its exact
    form. *)

Module Binary64.

Definition double : Type := spec_float.

Definition add : double -> double -> double := SFadd 53 1024.
Definition sub : double -> double -> double := SFsub 53 1024.
Definition div : double -> double -> double := SFdiv 53 1024.
Definition ltb : double -> double -> bool := SFltb.
Definition leb : double -> double -> bool := SFleb.
Definition eqb : double -> double -> bool := SFeqb.

Definition is_nan (x : double) : bool :=
  match x with S754_nan => true | _ => false end.

(** The double nearest to an integer. *)
Definition of_int (z : Z) : double := binary_normalize 53 1024 z 0 false.

(** [Math.floor] of a finite double, as an integer. *)
Definition Math_floor (x : double) : Z :=
  match x with
  | S754_finite s m e =>
      let n := if s then Z.neg m else Z.pos m in
      match e with
      | Zneg p => (n / 2 ^ Z.pos p)%Z
      | _ => (n * 2 ^ e)%Z
      end
  | _ => 0%Z
  end.

(** The rational that a finite double stands for. *)
Definition exact (x : double) : option Q :=
  match x with
  | S754_zero _ => Some 0
  | S754_finite s m e =>
      let n := if s then Z.neg m else Z.pos m in
      Some match e with
           | Zneg p => n # (2 ^ p)
           | _ => inject_Z (n * 2 ^ e)
           end
  | _ => None
  end.

Inductive value : Type :=
| VUndefined
| VNull
| VBool (b : bool)
| VNum (x : double)
| VStr (s : string)
| VArr (elems : list value)
| VObj (props : list (string * value))
| VNative.

(** ToBoolean: the zeros and NaN are the falsy numbers. *)
Definition truthy (v : value) : bool :=
  match v with
  | VUndefined | VNull => false
  | VBool b => b
  | VNum (S754_zero _) | VNum S754_nan => false
  | VNum _ => true
  | VStr s => negb (s =? "")
  | VArr _ | VObj _ | VNative => true
  end.

Definition typeof (v : value) : string :=
  match v with
  | VUndefined => "undefined"
  | VNull | VArr _ | VObj _ => "object"
  | VBool _ => "boolean"
  | VNum _ => "number"
  | VStr _ => "string"
  | VNative => "function"
  end.

Definition strict_neq_string (v : value) (s : string) : bool :=
  match v with
  | VStr s' => negb (s' =? s)
  | _ => true
  end.

Fixpoint own (props : list (string * value)) (k : string) : option value :=
  match props with
  | [] => None
  | (k', v) :: rest => if k' =? k then Some v else own rest k
  end.

Definition as_number (v : value) : double :=
  match v with VNum x => x | _ => S754_nan end.

Definition Object_keys (v : value) : Js.completion unit :=
  match v with
  | VUndefined | VNull => Js.Throw Js.TypeError_keys_of_null
  | _ => Js.Normal tt
  end.

Inductive body : Type :=
| Json (v : value)
| NotJson (syntaxError : string).

Definition JSON_parse (b : body) : Js.completion value :=
  match b with
  | Json v => Js.Normal v
  | NotJson m => Js.Throw m
  end.

Inductive network : Type :=
| Response (statusCode : Z) (statusMessage : string) (data : body)
| SocketError (message : string)
| SocketTimeout.

Definition makeHttpRequest (timeout : Z) (n : network) : Js.completion body :=
  match n with
  | Response statusCode statusMessage data =>
      if ((200 <=? statusCode) && (statusCode <? 300))%Z then Js.Normal data
      else Js.Throw ("HTTP " ++ Js.show_int statusCode ++ ": " ++ statusMessage)
  | SocketError message => Js.Throw ("Erro de rede: " ++ message)
  | SocketTimeout =>
      Js.Throw ("Timeout da requisição (" ++ Js.show_int timeout ++ "ms)")
  end.

Inductive outcome : Type :=
| Success (data meta : value) (elapsedTime : Q) (attempts : Z)
| Timeout (elapsedTime : Q) (attempts : Z).

Inductive settlement : Type :=
| Resolved (o : outcome)
| Rejected (message : string).

Record state : Type := {
  attempts : Z;
  timer : bool;
  pending : nat;
  promise : option settlement
}.

Definition clearInterval (s : state) : state :=
  {| attempts := attempts s; timer := false; pending := pending s;
     promise := promise s |}.

Definition settle (r : settlement) (s : state) : state :=
  match promise s with
  | None => {| attempts := attempts s; timer := timer s; pending := pending s;
               promise := Some r |}
  | Some _ => s
  end.

Inductive verdict : Type :=
| Continue
| Found (data meta : value)
| Raised (message : string).

(** What a completion reads of the [config] object. *)
Record config : Type := {
  debug : bool;
  requestTimeout : Z;
  type : string;
  retroBack : double
}.

Section Call.

Variable proto : value -> string -> value.
Variable key : string.
Variable cfg : config.
Variable startTime : Z.

Definition get (v : value) (k : string) : Js.completion value :=
  match v with
  | VUndefined => Js.Throw (Js.TypeError_read_of_undefined k)
  | VNull => Js.Throw (Js.TypeError_read_of_null k)
  | VObj props =>
      match own props k with
      | Some x => Js.Normal x
      | None => Js.Normal (proto v k)
      end
  | VArr elems =>
      match Js.array_index k with
      | Some i =>
          match nth_error elems i with
          | Some x => Js.Normal x
          | None => Js.Normal (proto v k)
          end
      | None => Js.Normal (proto v k)
      end
  | _ => Js.Normal (proto v k)
  end.

Definition prop (v : value) (k : string) : value :=
  match get v k with
  | Js.Normal x => x
  | Js.Throw _ => VUndefined
  end.

Definition say (t : HttpPubSub.trace) : list HttpPubSub.action :=
  if debug cfg then [HttpPubSub.Print t] else [].

Definition invalid_structure (message : value) : bool :=
  negb (truthy (prop message "type"))
  || negb (truthy (prop message "data"))
  || negb (truthy (prop message "meta"))
  || negb (typeof (prop (prop message "meta") "timestamp") =? "number")
  || negb (typeof (prop (prop message "meta") "expiration") =? "number").

(** [Math.floor(Date.now() / 1000)], the clock reading being an integer
    number of milliseconds. *)
Definition now_of (clock : Z) : double :=
  of_int (Math_floor (div (of_int clock) (of_int 1000))).

Definition timestamp_of (message : value) : double :=
  as_number (prop (prop message "meta") "timestamp").

Definition expiration_of (message : value) : double :=
  as_number (prop (prop message "meta") "expiration").

(** Lines 113 to 152: [now > expirationTime] is [ltb expirationTime now],
    false when either side is NaN. *)
Definition examine (clock : Z) (message : value)
  : verdict * list HttpPubSub.action :=
  if invalid_structure message then (Continue, say HttpPubSub.LogInvalid)
  else if strict_neq_string (prop message "type") (type cfg) then
    (Continue, say HttpPubSub.LogTypeMismatch)
  else
    let now := now_of clock in
    let messageTime := timestamp_of message in
    let expirationTime := add messageTime (expiration_of message) in
    if ltb expirationTime now then (Continue, say HttpPubSub.LogExpired)
    else
      let retroBackLimit := sub now (retroBack cfg) in
      if ltb messageTime retroBackLimit then (Continue, say HttpPubSub.LogRetroBack)
      else (Found (prop message "data") (prop message "meta"),
            say HttpPubSub.LogFound).

Definition attempt (n : network) (clock : Z) : verdict * list HttpPubSub.action :=
  match makeHttpRequest (requestTimeout cfg) n with
  | Js.Throw m => (Raised m, [])
  | Js.Normal response =>
      match JSON_parse response with
      | Js.Throw m => (Raised m, [])
      | Js.Normal messages =>
          match (if debug cfg then Object_keys messages else Js.Normal tt) with
          | Js.Throw m => (Raised m, [])
          | Js.Normal _ =>
              match get messages key with
              | Js.Throw m => (Raised m, say HttpPubSub.LogKeys)
              | Js.Normal message =>
                  if negb (truthy message) then
                    (Continue, (say HttpPubSub.LogKeys ++ say HttpPubSub.LogNotFound)%list)
                  else
                    let (v, out) := examine clock message in
                    (v, (say HttpPubSub.LogKeys ++ out)%list)
              end
          end
      end
  end.

Definition on_completion (n : network) (clock1 clock2 : Z) (s : state)
  : state * list HttpPubSub.action :=
  match pending s with
  | O => (s, [])
  | S p =>
      let s0 := {| attempts := attempts s; timer := timer s; pending := p;
                   promise := promise s |} in
      match attempt n clock1 with
      | (Continue, out) => (s0, out)
      | (Found data meta, out) =>
          let finalElapsed := HttpPubSub.elapsedTime_of (clock2 - startTime) in
          (settle (Resolved (Success data meta finalElapsed (attempts s0)))
                  (clearInterval s0), out)
      | (Raised m, out) =>
          if HttpPubSub.critical m then
            (settle (Rejected ("Erro ao processar resposta: " ++ m))
                    (clearInterval s0),
             (out ++ say (HttpPubSub.LogError m))%list)
          else (s0, (out ++ say (HttpPubSub.LogError m))%list)
      end
  end.

(** The specification's acceptable message, read in the arithmetic of
    the program: the sum and the difference are the rounded ones, the
    comparisons those of doubles. *)
Definition acceptable (message : value) (now : double) : Prop :=
  prop message "type" = VStr (type cfg)
  /\ leb now (add (timestamp_of message) (expiration_of message)) = true
  /\ leb (sub now (retroBack cfg)) (timestamp_of message) = true.

(** The specification's acceptable message, read in exact arithmetic on
    the values of the numbers. *)
Definition acceptable_exactly (message : value) (now : double) : Prop :=
  prop message "type" = VStr (type cfg)
  /\ exists n t e r : Q,
      exact now = Some n /\ exact (timestamp_of message) = Some t
      /\ exact (expiration_of message) = Some e /\ exact (retroBack cfg) = Some r
      /\ n <= t + e /\ t >= n - r.

Definition succeeded (s : state) : Prop :=
  exists data meta elapsed n,
    promise s = Some (Resolved (Success data meta elapsed n)).

End Call.

(** No inherited members. *)
Definition bare (_ : value) (_ : string) : value := VUndefined.

(** [{ type: "t", data: "X", meta: { timestamp: ts, expiration: ex } }]. *)
Definition envelope (ts ex : double) : value :=
  VObj [("type", VStr "t"); ("data", VStr "X");
        ("meta", VObj [("timestamp", VNum ts); ("expiration", VNum ex)])].

(** A 200 response whose body is the JSON text of [{ "k1": m }]. *)
Definition carrying (m : value) : network :=
  Response 200 "OK" (Json (VObj [("k1", m)])).

(** [type: "t"] and the given [retroBack]. *)
Definition asking (r : double) : config :=
  {| debug := false; requestTimeout := 5000; type := "t"; retroBack := r |}.

(** The first request of a call is awaited. *)
Definition awaiting : state :=
  {| attempts := 1; timer := true; pending := 1; promise := None |}.

(** 0.9999999999999999, the double next below 1. *)
Definition just_below_1 : double := S754_finite false 9007199254740991 (-53).

End Binary64.

(** ** Concrete calls *)

Module Scenario.
Import Js HttpPubSub.

(** [listenFrom("k1", { type: "t", timeout: 120, retroBack: 60,
    endpoint: "http://bridge.test/messages" })]. *)
Definition request : options :=
  {| opt_type := VStr "t";
     opt_timeout := VNum 120;
     opt_retroBack := VNum 60;
     opt_interval := None;
     opt_debug := false;
     opt_endpoint := Some "http://bridge.test/messages";
     opt_headers := None;
     opt_requestTimeout := None |}.

Definition with_timeout (v : value) (o : options) : options :=
  {| opt_type := opt_type o; opt_timeout := v; opt_retroBack := opt_retroBack o;
     opt_interval := opt_interval o; opt_debug := opt_debug o;
     opt_endpoint := opt_endpoint o; opt_headers := opt_headers o;
     opt_requestTimeout := opt_requestTimeout o |}.

Definition with_retroBack (v : value) (o : options) : options :=
  {| opt_type := opt_type o; opt_timeout := opt_timeout o; opt_retroBack := v;
     opt_interval := opt_interval o; opt_debug := opt_debug o;
     opt_endpoint := opt_endpoint o; opt_headers := opt_headers o;
     opt_requestTimeout := opt_requestTimeout o |}.

Definition with_interval (x : option Q) (o : options) : options :=
  {| opt_type := opt_type o; opt_timeout := opt_timeout o;
     opt_retroBack := opt_retroBack o;
     opt_interval := x; opt_debug := opt_debug o;
     opt_endpoint := opt_endpoint o; opt_headers := opt_headers o;
     opt_requestTimeout := opt_requestTimeout o |}.

(** The configuration that [request] leads to, with [debug] as given. *)
Definition cfg (d : bool) : config :=
  {| interval := 10; debug := d; endpoint := "http://bridge.test/messages";
     headers := []; requestTimeout := 5000; type := "t"; timeout := 120;
     retroBack := 60 |}.

(** The call starts at this reading of the clock, in milliseconds. *)
Definition startTime : Z := 1700000000000.

(** [{ type: "t", data: d, meta: { timestamp: ts, expiration: ex } }]. *)
Definition envelope (d : value) (ts ex : Q) : value :=
  VObj [("type", VStr "t"); ("data", d);
        ("meta", VObj [("timestamp", VNum ts); ("expiration", VNum ex)])].

(** A 200 response whose body is the JSON text of [{ "k1": m }]. *)
Definition carrying (m : value) : network :=
  Response 200 "OK" (Json (VObj [("k1", m)])).

(** The state after the first firing of the interval has started its
    request. *)
Definition awaiting : state :=
  {| attempts := 1; timer := true; pending := 1; promise := None |}.

(** A message emitted 60 seconds before the evaluation instant
    1700000010 and valid for 60 seconds: on both limits at once. *)
Definition on_the_limits : value := envelope (VStr "X") 1699999950 60.

(** A call with a budget of ten seconds. *)
Definition cfg_short : config :=
  {| interval := 5; debug := false; endpoint := "http://bridge.test/messages";
     headers := []; requestTimeout := 5000; type := "t"; timeout := 10;
     retroBack := 60 |}.

(** A 200 response whose body is the JSON text of the empty object. *)
Definition nothing_yet : network := Response 200 "OK" (Json (VObj [])).

(** [new URL("http://bridge.test/messages")]. *)
Definition bridge : URL :=
  {| url_protocol := "http:"; url_hostname := "bridge.test"; url_port := "";
     url_pathname := "/messages"; url_search := "" |}.

End Scenario.

(** ** Properties *)

Module Facts.
Import Js HttpPubSub.

Lemma strict_neq_string_false (v : value) (s : string) :
  strict_neq_string v s = false <-> v = VStr s.
Proof.
  destruct v; simpl; split; intro H; try discriminate.
  - apply negb_false_iff, String.eqb_eq in H. now subst.
  - injection H as ->. now rewrite String.eqb_refl.
Qed.

Lemma Qlt_bool_false (x y : Q) : Qlt_bool x y = false <-> y <= x.
Proof.
  unfold Qlt_bool. rewrite negb_false_iff. apply Qle_bool_iff.
Qed.

Lemma Qlt_bool_true (x y : Q) : Qlt_bool x y = true <-> x < y.
Proof.
  unfold Qlt_bool. rewrite negb_true_iff. split; intro H.
  - apply Qnot_le_lt. intro L. apply Qle_bool_iff in L. congruence.
  - destruct (Qle_bool y x) eqn:E; trivial.
    apply Qle_bool_iff in E. exfalso. exact (Qlt_not_le _ _ H E).
Qed.

Section Call.

Variable proto : value -> string -> value.
Variable key : string.
Variable cfg : config.
Variable startTime : Z.

Local Abbreviation examine := (examine proto cfg).
Local Abbreviation attempt := (attempt proto key cfg).
Local Abbreviation on_tick := (on_tick cfg startTime).
Local Abbreviation on_completion := (on_completion proto key cfg startTime).
Local Abbreviation step := (step proto key cfg startTime).
Local Abbreviation run := (run proto key cfg startTime).
Local Abbreviation invalid_structure := (invalid_structure proto).

(** A 2xx response whose body parses and holds a truthy entry under the
    key: the [try] block comes to what [examine] says of the entry. *)
Lemma attempt_examines (sc : Z) (sm : string) (messages message : value) (clock : Z) :
  (200 <= sc < 300)%Z ->
  get proto messages key = Normal message ->
  truthy message = true ->
  fst (attempt (Response sc sm (Json messages)) clock) = fst (examine clock message).
Proof.
  intros Hsc Hget Ht. unfold HttpPubSub.attempt.
  cbn [makeHttpRequest].
  replace ((200 <=? sc)%Z && (sc <? 300)%Z) with true
    by (symmetry; apply andb_true_iff; split; [apply Z.leb_le | apply Z.ltb_lt]; lia).
  cbn [JSON_parse].
  assert (Hk : Object_keys messages = Normal tt)
    by (destruct messages; simpl in *; try discriminate; reflexivity).
  rewrite Hget, Ht. cbn [negb].
  destruct (debug cfg); [rewrite Hk|];
    destruct (HttpPubSub.examine proto cfg clock message); reflexivity.
Qed.

Lemma completion_continue (s : state) (n : network) (clock1 clock2 : Z) :
  fst (attempt n clock1) = Continue ->
  let s' := fst (on_completion n clock1 clock2 s) in
  promise s' = promise s /\ timer s' = timer s /\ attempts s' = attempts s.
Proof.
  intros Ha. unfold HttpPubSub.on_completion.
  destruct (pending s) as [|p]; [simpl; auto|].
  destruct (HttpPubSub.attempt proto key cfg n clock1) as [v out].
  simpl in Ha. subst v. simpl. auto.
Qed.

(** *** Counting the requests *)

Lemma fetches_app (a b : list action) :
  fetches (a ++ b) = (fetches a + fetches b)%nat.
Proof.
  induction a as [|[u h m|t] a IH]; simpl; auto.
Qed.

Lemma fetches_say (t : trace) : fetches (say cfg t) = O.
Proof.
  unfold say. now destruct (debug cfg).
Qed.

Lemma examine_quiet (clock : Z) (message : value) :
  fetches (snd (examine clock message)) = O.
Proof.
  unfold HttpPubSub.examine.
  repeat match goal with
         | |- context [if ?b then _ else _] => destruct b
         end; simpl; apply fetches_say.
Qed.

Lemma attempt_quiet (n : network) (clock : Z) :
  fetches (snd (attempt n clock)) = O.
Proof.
  unfold HttpPubSub.attempt.
  destruct (makeHttpRequest _ n) as [response|m]; [|reflexivity].
  destruct (JSON_parse response) as [messages|m]; [|reflexivity].
  destruct (if debug cfg then Object_keys messages else Normal tt); [|reflexivity].
  destruct (get proto messages key) as [message|m]; simpl; [|apply fetches_say].
  destruct (truthy message); simpl.
  - pose proof (examine_quiet clock message) as Q.
    destruct (HttpPubSub.examine proto cfg clock message) as [v out].
    simpl in *. now rewrite fetches_app, fetches_say, Q.
  - now rewrite fetches_app, !fetches_say.
Qed.

(** *** The promise and the timer *)

Lemma polling_initial : polling initial.
Proof.
  unfold polling. simpl. tauto.
Qed.

(** A completion changes neither the counter nor the requests started;
    it only clears the timer together with settling the promise. *)
Lemma on_completion_cases (n : network) (clock1 clock2 : Z) (s : state) :
  let s' := fst (on_completion n clock1 clock2 s) in
  attempts s' = attempts s
  /\ fetches (snd (on_completion n clock1 clock2 s)) = O
  /\ ((promise s' = promise s /\ timer s' = timer s)
      \/ (timer s' = false
          /\ exists r, promise s' = match promise s with Some r0 => Some r0 | None => Some r end
                       /\ forall e a, r <> Resolved (Timeout e a))).
Proof.
  unfold HttpPubSub.on_completion.
  destruct (pending s) as [|p]; [simpl; auto|].
  pose proof (attempt_quiet n clock1) as Q.
  destruct (HttpPubSub.attempt proto key cfg n clock1) as [[|data meta|m] out];
    simpl in Q |- *.
  - auto.
  - split; [now destruct (promise s)|]. split; [exact Q|]. right.
    split; [now destruct (promise s)|].
    eexists. split; [unfold settle; simpl; destruct (promise s); reflexivity|].
    discriminate.
  - destruct (critical m); simpl.
    + split; [now destruct (promise s)|].
      split; [now rewrite fetches_app, fetches_say, Q|]. right.
      split; [now destruct (promise s)|].
      eexists. split; [unfold settle; simpl; destruct (promise s); reflexivity|].
      discriminate.
    + split; [reflexivity|].
      split; [now rewrite fetches_app, fetches_say, Q|]. auto.
Qed.

(** A firing of the interval. *)
Lemma on_tick_cases (clock : Z) (s : state) :
  let s' := fst (on_tick clock s) in
  let out := snd (on_tick clock s) in
  (timer s = false -> s' = s /\ out = [])
  /\ (timer s = true -> timeoutMs cfg <= inject_Z (clock - startTime) ->
      attempts s' = attempts s /\ fetches out = O /\ timer s' = false
      /\ promise s'
         = match promise s with
           | Some r => Some r
           | None => Some (Resolved (Timeout (elapsedTime_of (clock - startTime))
                                             (attempts s)))
           end)
  /\ (timer s = true -> ~ timeoutMs cfg <= inject_Z (clock - startTime) ->
      attempts s' = (attempts s + 1)%Z /\ fetches out = 1%nat /\ timer s' = true
      /\ promise s' = promise s).
Proof.
  unfold HttpPubSub.on_tick.
  destruct (timer s) eqn:T; simpl.
  - split; [discriminate|].
    destruct (Qle_bool (timeoutMs cfg) (inject_Z (clock - startTime))) eqn:B; simpl.
    + split.
      * intros _ _. unfold settle. simpl. destruct (promise s) eqn:P; simpl; auto.
      * intros _ H. apply Qle_bool_iff in B. contradiction.
    + split.
      * intros _ H. apply Qle_bool_iff in H. congruence.
      * intros _ _. rewrite fetches_app, fetches_say. simpl. auto.
  - split; [auto|]. split; discriminate.
Qed.

Lemma step_polling (e : event) (s : state) :
  polling s -> polling (fst (step e s)).
Proof.
  unfold polling. intros I. destruct e as [clock|n clock1 clock2]; simpl.
  - destruct (on_tick_cases clock s) as (Off & Out & Go).
    destruct (timer s) eqn:T.
    + destruct (Qlt_le_dec (inject_Z (clock - startTime)) (timeoutMs cfg)) as [L|L].
      * destruct Go as (_ & _ & T' & P'); trivial.
        { intro H. exact (Qlt_not_le _ _ L H). }
        rewrite T', P'. exact I.
      * destruct Out as (_ & _ & T' & P'); trivial.
        rewrite T', P'. destruct (promise s); split; discriminate.
    + destruct Off as (E & _); trivial. rewrite E, T. exact I.
  - destruct (on_completion_cases n clock1 clock2 s) as (_ & _ & [(P & T)|(T & r & P & _)]).
    + rewrite P, T. exact I.
    + rewrite P, T. destruct (promise s); split; discriminate.
Qed.

(** Once the promise is settled and the timer cleared, nothing moves. *)
Lemma step_settled (e : event) (s : state) (r : settlement) :
  promise s = Some r -> timer s = false ->
  let s' := fst (step e s) in
  promise s' = Some r /\ timer s' = false /\ attempts s' = attempts s
  /\ fetches (snd (step e s)) = O.
Proof.
  intros P T. destruct e as [clock|n clock1 clock2]; simpl.
  - destruct (on_tick_cases clock s) as ((E & O) & _); trivial.
    rewrite E, O. auto.
  - destruct (on_completion_cases n clock1 clock2 s)
      as (A & F & [(P' & T')|(T' & r' & P' & _)]).
    + rewrite P', T'. auto.
    + rewrite P', P. auto.
Qed.

Lemma run_cons (e : event) (es : list event) (s : state) :
  run (e :: es) s
  = (fst (run es (fst (step e s))),
     (snd (step e s) ++ snd (run es (fst (step e s))))%list).
Proof.
  simpl. destruct (HttpPubSub.step proto key cfg startTime e s) as [s1 o1].
  simpl. now destruct (HttpPubSub.run proto key cfg startTime es s1).
Qed.

Lemma run_app (es1 es2 : list event) (s : state) :
  run (es1 ++ es2) s
  = (fst (run es2 (fst (run es1 s))),
     (snd (run es1 s) ++ snd (run es2 (fst (run es1 s))))%list).
Proof.
  revert s. induction es1 as [|e es1 IH]; intros s.
  - simpl. now destruct (HttpPubSub.run proto key cfg startTime es2 s).
  - rewrite <- app_comm_cons, !run_cons, IH. simpl. now rewrite app_assoc.
Qed.

Lemma run_polling (es : list event) (s : state) :
  polling s -> polling (fst (run es s)).
Proof.
  revert s. induction es as [|e es IH]; intros s I; [exact I|].
  rewrite run_cons. simpl. apply IH, step_polling, I.
Qed.

Lemma run_settled (es : list event) (s : state) (r : settlement) :
  promise s = Some r -> timer s = false ->
  let s' := fst (run es s) in
  promise s' = Some r /\ timer s' = false /\ attempts s' = attempts s
  /\ fetches (snd (run es s)) = O.
Proof.
  revert s. induction es as [|e es IH]; intros s P T; [simpl; auto|].
  rewrite run_cons. simpl.
  destruct (step_settled e s r P T) as (P1 & T1 & A1 & F1).
  destruct (IH _ P1 T1) as (P2 & T2 & A2 & F2).
  rewrite fetches_app, F1, F2, A2, A1. auto.
Qed.

Lemma run_attempts (es : list event) (s : state) :
  attempts (fst (run es s))
  = (attempts s + Z.of_nat (fetches (snd (run es s))))%Z.
Proof.
  revert s. induction es as [|e es IH]; intros s; [simpl; lia|].
  rewrite run_cons. simpl. rewrite IH, fetches_app, Nat2Z.inj_add.
  enough (attempts (fst (step e s))
          = (attempts s + Z.of_nat (fetches (snd (step e s))))%Z) by lia.
  destruct e as [clock|n clock1 clock2]; simpl.
  - destruct (on_tick_cases clock s) as (Off & Out & Go).
    destruct (timer s) eqn:T.
    + destruct (Qlt_le_dec (inject_Z (clock - startTime)) (timeoutMs cfg)) as [L|L].
      * destruct Go as (A & F & _); trivial.
        { intro H. exact (Qlt_not_le _ _ L H). }
        rewrite A, F. simpl. lia.
      * destruct Out as (A & F & _); trivial. rewrite A, F. simpl. lia.
    + destruct Off as (E & O); trivial. rewrite E, O. simpl. lia.
  - destruct (on_completion_cases n clock1 clock2 s) as (A & F & _).
    rewrite A, F. simpl. lia.
Qed.

(** C2.  In every run of a call, a settled promise stays as it was
    settled (with one of a success, a timeout or an error), the timer is
    cleared from then on, the counter no longer moves and no request is
    started any more; and the first firing of the interval at or after the
    deadline leaves the promise settled, whatever came before. *)
Theorem resolves_exactly_once (es : list event) :
  (forall (r : settlement) (more : list event),
      promise (fst (run es initial)) = Some r ->
      let s' := fst (run (es ++ more) initial) in
      promise s' = Some r /\ timer s' = false
      /\ attempts s' = attempts (fst (run es initial))
      /\ fetches (snd (run (es ++ more) initial)) = fetches (snd (run es initial)))
  /\ (forall (clock : Z) (more : list event),
         timeoutMs cfg <= inject_Z (clock - startTime) ->
         exists r, promise (fst (run (es ++ Tick clock :: more) initial)) = Some r).
Proof.
  pose proof (run_polling es initial polling_initial) as I.
  split.
  - intros r more P. rewrite run_app. simpl.
    assert (T : timer (fst (run es initial)) = false).
    { destruct (timer (fst (run es initial))) eqn:T; trivial.
      apply I in T. congruence. }
    destruct (run_settled more _ r P T) as (P' & T' & A' & F').
    rewrite fetches_app, F'. auto with arith.
  - intros clock more B. rewrite run_app, run_cons. simpl.
    set (s := fst (run es initial)) in *.
    assert (S1 : exists r, promise (fst (on_tick clock s)) = Some r
                           /\ timer (fst (on_tick clock s)) = false).
    { destruct (on_tick_cases clock s) as (Off & Out & _).
      destruct (timer s) eqn:T.
      - destruct Out as (_ & _ & T' & P'); trivial.
        rewrite P'. destruct (promise s); eauto.
      - destruct Off as (E & _); trivial. rewrite E.
        destruct (promise s) as [r|] eqn:P; [eauto|].
        apply I in P. congruence. }
    destruct S1 as (r & P1 & T1).
    exists r. now destruct (run_settled more _ r P1 T1).
Qed.

(** C3.  While the call is pending, a 2xx response whose body is not
    JSON (the [SyntaxError] of [JSON.parse] names JSON in its message, as
    the engine's messages do) rejects the promise with the processing
    error, clears the timer, and no later event starts a request, moves the
    counter or changes the rejection. *)
Theorem malformed_body_rejects
    (s : state) (sc : Z) (sm m : string) (clock1 clock2 : Z) :
  promise s = None -> pending s <> O ->
  (200 <= sc < 300)%Z ->
  includes m "JSON" = true ->
  let s' := fst (on_completion (Response sc sm (NotJson m)) clock1 clock2 s) in
  promise s' = Some (Rejected ("Erro ao processar resposta: " ++ m))
  /\ timer s' = false
  /\ attempts s' = attempts s
  /\ forall es : list event,
      promise (fst (run es s')) = promise s'
      /\ attempts (fst (run es s')) = attempts s
      /\ fetches (snd (run es s')) = O.
Proof.
  intros P Q Hsc Hm s'.
  assert (E : s' = {| attempts := attempts s; timer := false;
                      pending := Nat.pred (pending s);
                      promise := Some (Rejected ("Erro ao processar resposta: " ++ m)) |}).
  { unfold s', HttpPubSub.on_completion, HttpPubSub.attempt.
    destruct (pending s) as [|p]; [congruence|].
    cbn [makeHttpRequest].
    replace ((200 <=? sc)%Z && (sc <? 300)%Z) with true
      by (symmetry; apply andb_true_iff; split; [apply Z.leb_le | apply Z.ltb_lt]; lia).
    cbn [JSON_parse]. unfold critical. rewrite Hm. simpl.
    unfold settle. simpl. now rewrite P. }
  rewrite E. simpl. repeat split; trivial; intros;
    now destruct (run_settled es _ _ (eq_refl : promise
      {| attempts := attempts s; timer := false; pending := Nat.pred (pending s);
         promise := Some (Rejected ("Erro ao processar resposta: " ++ m)) |} = _)
      eq_refl) as (? & ? & ? & ?).
Qed.

(** C6.  In every run of a call the counter equals the number of
    requests started, and so does the count that a timeout reports.  A
    firing that finds the budget used up settles the timeout with the
    counter as it stands and starts no request; any other firing adds
    exactly one to the counter and starts exactly one request. *)
Theorem attempts_count_fetches (es : list event) :
  let s := fst (run es initial) in
  let out := snd (run es initial) in
  attempts s = Z.of_nat (fetches out)
  /\ (forall (e : Q) (a : Z),
         promise s = Some (Resolved (Timeout e a)) -> a = Z.of_nat (fetches out))
  /\ (forall clock : Z,
         timer s = true ->
         let s' := fst (on_tick clock s) in
         let out' := snd (on_tick clock s) in
         (timeoutMs cfg <= inject_Z (clock - startTime) ->
          attempts s' = attempts s /\ fetches out' = O
          /\ promise s'
             = Some (Resolved (Timeout (elapsedTime_of (clock - startTime)) (attempts s))))
         /\ (~ timeoutMs cfg <= inject_Z (clock - startTime) ->
             attempts s' = (attempts s + 1)%Z /\ fetches out' = 1%nat
             /\ promise s' = None)).
Proof.
  intros s out.
  assert (A : attempts s = Z.of_nat (fetches out)).
  { unfold s, out. rewrite run_attempts. simpl. lia. }
  pose proof (run_polling es initial polling_initial) as I. fold s in I.
  split; [exact A|]. split.
  - (* the count reported by a timeout *)
    intros e a. unfold s, out. clear.
    assert (G : forall es s0 n0,
               (forall e a, promise s0 = Some (Resolved (Timeout e a)) -> a = attempts s0) ->
               polling s0 ->
               attempts s0 = Z.of_nat n0 ->
               promise (fst (run es s0)) = Some (Resolved (Timeout e a)) ->
               a = Z.of_nat (n0 + fetches (snd (run es s0)))).
    { clear es. induction es as [|ev es IH]; intros s0 n0 J I A P.
      - simpl in *. rewrite Nat.add_0_r, <- A. eauto.
      - rewrite run_cons in P |- *. simpl in P |- *.
        rewrite fetches_app, Nat.add_assoc.
        apply IH; trivial.
        + intros e' a' P'.
          destruct ev as [clock|n c1 c2]; simpl in *.
          * destruct (on_tick_cases clock s0) as (Off & Out & Go).
            destruct (timer s0) eqn:T.
            -- destruct (Qlt_le_dec (inject_Z (clock - startTime)) (timeoutMs cfg)) as [L|L].
               ++ destruct Go as (A' & _ & _ & P2); trivial.
                  { intro H. exact (Qlt_not_le _ _ L H). }
                  rewrite P2 in P'. apply I in T. congruence.
               ++ destruct Out as (A' & _ & _ & P2); trivial.
                  rewrite A'. apply I in T. rewrite T in P2. congruence.
            -- destruct Off as (E & _); trivial. rewrite E in *. eauto.
          * destruct (on_completion_cases n c1 c2 s0)
              as (A' & _ & [(P2 & _)|(_ & r & P2 & N)]).
            -- rewrite A'. rewrite P2 in P'. eauto.
            -- rewrite A'. rewrite P2 in P'.
               destruct (promise s0) eqn:P0; [eauto|].
               injection P' as ->. exfalso. eapply N. reflexivity.
        + now apply step_polling.
        + rewrite Nat2Z.inj_add, <- A.
          pose proof (run_attempts [ev] s0) as R. rewrite run_cons in R.
          simpl in R. rewrite app_nil_r in R. exact R. }
    intros P. apply (G es initial O); trivial.
    + simpl. discriminate.
    + apply polling_initial.
  - intros clock T s' out'.
    assert (P : promise s = None) by now apply I.
    destruct (on_tick_cases clock s) as (_ & Out & Go).
    split.
    + intros B. destruct (Out T B) as (A' & F' & _ & P').
      rewrite P in P'. auto.
    + intros B. destruct (Go T B) as (A' & F' & _ & P').
      rewrite P in P'. auto.
Qed.

(** C10.  A call that has resolved with a timeout got there at a firing
    of the interval whose clock reading was at or past the deadline,
    [elapsed >= timeout * 1000] in milliseconds, and reports that elapsed
    time. *)
Theorem timeout_only_after_budget (es : list event) (e : Q) (a : Z) :
  promise (fst (run es initial)) = Some (Resolved (Timeout e a)) ->
  exists clock : Z,
    In (Tick clock) es
    /\ timeoutMs cfg <= inject_Z (clock - startTime)
    /\ e = elapsedTime_of (clock - startTime).
Proof.
  assert (G : forall es s,
             polling s -> promise s = None ->
             promise (fst (run es s)) = Some (Resolved (Timeout e a)) ->
             exists clock : Z,
               In (Tick clock) es
               /\ timeoutMs cfg <= inject_Z (clock - startTime)
               /\ e = elapsedTime_of (clock - startTime)).
  { clear es. induction es as [|ev es IH]; intros s I P R.
    - simpl in R. congruence.
    - rewrite run_cons in R. simpl in R.
      destruct (promise (fst (step ev s))) as [r|] eqn:P1.
      + assert (T1 : timer (fst (step ev s)) = false).
        { destruct (timer (fst (step ev s))) eqn:T; trivial.
          apply (step_polling ev s I) in T. congruence. }
        destruct (run_settled es _ r P1 T1) as (P2 & _).
        rewrite P2 in R. injection R as ->.
        destruct ev as [clock|n c1 c2]; simpl in P1.
        * exists clock. split; [now left|].
          destruct (on_tick_cases clock s) as (Off & Out & Go).
          destruct (timer s) eqn:T.
          -- destruct (Qlt_le_dec (inject_Z (clock - startTime)) (timeoutMs cfg)) as [L|L].
             ++ destruct Go as (_ & _ & _ & P'); trivial.
                { intro H. exact (Qlt_not_le _ _ L H). }
                congruence.
             ++ destruct Out as (_ & _ & _ & P'); trivial.
                rewrite P in P'. split; [exact L|]. congruence.
          -- destruct Off as (E & _); trivial. rewrite E in P1. congruence.
        * destruct (on_completion_cases n c1 c2 s) as (_ & _ & [(P' & _)|(_ & r & P' & N)]).
          -- congruence.
          -- rewrite P in P'. rewrite P' in P1. injection P1 as ->.
             exfalso. eapply N. reflexivity.
      + destruct (IH _ (step_polling ev s I) P1 R) as (clock & H & B).
        exists clock. split; [now right|exact B]. }
  intros R. apply (G es initial); trivial. apply polling_initial.
Qed.

End Call.

(** *** The scenarios, run *)

Import Scenario.

Example listenFrom_request :
  listenFrom None (VStr "k1") request = inr ("k1", cfg false).
Proof. reflexivity. Qed.

Example first_firing :
  run Object_prototype "k1" (cfg false) startTime [Tick 1700000010003] initial
  = (awaiting, [Fetch "http://bridge.test/messages" [] 5000]).
Proof. reflexivity. Qed.

Lemma resolves_exactly_once_witness :
  (let s' := fst (run Object_prototype "k1" (cfg false) startTime
                      ([Tick 1700000010003;
                        Completed (carrying on_the_limits) 1700000010120 1700000010121]
                       ++ [Tick 1700000020003; Tick 1700000120004])
                      initial) in
   promise s'
   = Some (Resolved (Success (VStr "X")
                             (VObj [("timestamp", VNum 1699999950); ("expiration", VNum 60)])
                             (elapsedTime_of 10121) 1))
   /\ timer s' = false /\ attempts s' = 1%Z)
  /\ exists r,
      promise (fst (run Object_prototype "k1" (cfg false) startTime
                        ([Tick 1700000010003] ++ Tick 1700000120004 :: [Tick 1700000130004])
                        initial)) = Some r.
Proof.
  pose proof (resolves_exactly_once Object_prototype "k1" (cfg false) startTime
                [Tick 1700000010003;
                 Completed (carrying on_the_limits) 1700000010120 1700000010121])
    as (Once & _).
  pose proof (resolves_exactly_once Object_prototype "k1" (cfg false) startTime
                [Tick 1700000010003]) as (_ & Deadline).
  split.
  - destruct (Once _ [Tick 1700000020003; Tick 1700000120004] eq_refl)
      as (P & T & A & _).
    exact (conj P (conj T A)).
  - apply Deadline. unfold timeoutMs, Qle. simpl. lia.
Defined.

Lemma malformed_body_rejects_witness :
  let s' := fst (on_completion Object_prototype "k1" (cfg false) startTime
                               (Response 200 "OK" (NotJson "Unexpected end of JSON input"))
                               1700000010120 1700000010121 awaiting) in
  promise s'
  = Some (Rejected "Erro ao processar resposta: Unexpected end of JSON input")
  /\ timer s' = false
  /\ fetches (snd (run Object_prototype "k1" (cfg false) startTime
                       [Tick 1700000020003; Tick 1700000030003] s')) = O.
Proof.
  destruct (malformed_body_rejects Object_prototype "k1" (cfg false) startTime
              awaiting 200 "OK" "Unexpected end of JSON input"
              1700000010120 1700000010121)
    as (P & T & _ & Later).
  - reflexivity.
  - simpl. lia.
  - lia.
  - reflexivity.
  - exact (conj P (conj T (proj2 (proj2 (Later [Tick 1700000020003; Tick 1700000030003]))))).
Defined.

Lemma attempts_count_fetches_witness :
  let s' := fst (on_tick (cfg false) startTime 1700000120004 awaiting) in
  attempts s' = 1%Z
  /\ promise s' = Some (Resolved (Timeout (elapsedTime_of 120004) 1)).
Proof.
  destruct (attempts_count_fetches Object_prototype "k1" (cfg false) startTime
              [Tick 1700000010003]) as (_ & _ & OnTick).
  destruct (OnTick 1700000120004%Z eq_refl) as (Out & _).
  destruct Out as (A & _ & P).
  - unfold timeoutMs, Qle. simpl. lia.
  - exact (conj A P).
Defined.

Lemma timeout_only_after_budget_witness :
  exists clock : Z,
    In (Tick clock)
       [Tick 1700000010003;
        Completed (Response 200 "OK" (Json (VObj []))) 1700000010120 1700000010121;
        Tick 1700000120004]
    /\ timeoutMs (cfg false) <= inject_Z (clock - startTime)
    /\ elapsedTime_of 120004 = elapsedTime_of (clock - startTime).
Proof.
  apply (timeout_only_after_budget Object_prototype "k1" (cfg false) startTime _ _ 1%Z).
  reflexivity.
Defined.

(** *** Where the code parts from what it announces *)

(** The interval that takes effect: a number below 1 other than 0 becomes
    1, a number from 1 on is kept. *)
Lemma effective_interval_clamps (q : Q) :
  q < 1 -> ~ q == 0 -> effective_interval (Some q) = 1.
Proof.
  intros L N. unfold effective_interval, number_or.
  destruct (Qeq_bool q 0) eqn:E; [apply Qeq_bool_iff in E; contradiction|].
  apply Qlt_bool_true in L. now rewrite L.
Qed.

Lemma effective_interval_keeps (q : Q) :
  1 <= q -> effective_interval (Some q) = q.
Proof.
  intros L. unfold effective_interval, number_or.
  destruct (Qeq_bool q 0) eqn:E.
  - apply Qeq_bool_iff in E. rewrite E in L. exfalso. revert L. apply Qlt_not_le.
    reflexivity.
  - apply Qlt_bool_false in L. now rewrite L.
Qed.

(** A failed request whose message the [catch] block does not take for
    critical leaves the call as it was. *)
Lemma failure_keeps_polling
    (proto : value -> string -> value) (key : string) (c : config) (start : Z)
    (n : network) (m : string) (clock1 clock2 : Z) (s : state) :
  makeHttpRequest (requestTimeout c) n = Throw m ->
  critical m = false ->
  let s' := fst (on_completion proto key c start n clock1 clock2 s) in
  promise s' = promise s /\ timer s' = timer s /\ attempts s' = attempts s.
Proof.
  intros F C. unfold on_completion, attempt. rewrite F.
  destruct (pending s); simpl; [auto|]. rewrite C. simpl. auto.
Qed.

(** What [listenFrom] lets through for the two budgets: numbers other than
    0, of either sign. *)
Lemma listenFrom_accepts (env : option string) (key : value) (o : options)
    (k : string) (c : config) :
  listenFrom env key o = inr (k, c) ->
  (exists q, opt_timeout o = VNum q /\ ~ q == 0 /\ timeout c = q)
  /\ (exists q, opt_retroBack o = VNum q /\ ~ q == 0 /\ retroBack c = q).
Proof.
  unfold listenFrom. intros H.
  destruct (negb (truthy key) || negb (typeof key =? "string")); [discriminate|].
  destruct (negb (truthy (opt_type o)) || negb (typeof (opt_type o) =? "string"));
    [discriminate|].
  destruct (negb (truthy (opt_timeout o)) || negb (typeof (opt_timeout o) =? "number"))
    eqn:T; [discriminate|].
  destruct (negb (truthy (opt_retroBack o)) || negb (typeof (opt_retroBack o) =? "number"))
    eqn:R; [discriminate|].
  destruct (string_or (opt_endpoint o) env) as [e|]; [|discriminate].
  destruct (e =? ""); [discriminate|].
  injection H as _ <-. simpl.
  apply orb_false_iff in T, R. destruct T as (T1 & T2), R as (R1 & R2).
  apply negb_false_iff in T1, R1.
  split.
  - destruct (opt_timeout o) as [| | |q| | | |]; try discriminate.
    exists q. simpl in T1. apply negb_true_iff in T1.
    repeat split; trivial. intro E. apply Qeq_bool_iff in E. congruence.
  - destruct (opt_retroBack o) as [| | |q| | | |]; try discriminate.
    exists q. simpl in R1. apply negb_true_iff in R1.
    repeat split; trivial. intro E. apply Qeq_bool_iff in E. congruence.
Qed.

(** Among truthy values of [data], the verdict on a message does not
    depend on [data], which the success hands over untouched. *)
Lemma data_is_handed_over
    (proto : value -> string -> value) (c : config) (clock : Z) (ty d1 d2 me : value) :
  truthy d1 = true -> truthy d2 = true ->
  (fst (examine proto c clock (shaped ty d1 me)) = Continue
   /\ fst (examine proto c clock (shaped ty d2 me)) = Continue)
  \/ (fst (examine proto c clock (shaped ty d1 me)) = Found d1 me
      /\ fst (examine proto c clock (shaped ty d2 me)) = Found d2 me).
Proof.
  intros T1 T2. unfold examine, invalid_structure, shaped, prop. cbn. rewrite T1, T2.
  repeat match goal with
         | |- context [if ?b then _ else _] => destruct b; cbn
         end; auto.
Qed.

(** [debug] changes what is printed and nothing else, as long as no 2xx
    response has the JSON text [null] for a body. *)
Lemma debug_only_prints
    (proto : value -> string -> value) (key : string) (c : config) (start : Z)
    (es : list event) (s : state) :
  forallb (fun e => negb (answers_null e)) es = true ->
  fst (run proto key (set_debug true c) start es s)
  = fst (run proto key (set_debug false c) start es s).
Proof.
  revert s. induction es as [|e es IH]; intros s H; [reflexivity|].
  simpl in H. apply andb_true_iff in H. destruct H as (He & Hes).
  rewrite !run_cons. simpl.
  enough (E : fst (step proto key (set_debug true c) start e s)
              = fst (step proto key (set_debug false c) start e s))
    by (rewrite E; now apply IH).
  clear IH Hes. destruct e as [clock|n clock1 clock2]; simpl.
  - unfold on_tick, timeoutMs. simpl.
    destruct (timer s); simpl; trivial.
    now destruct (Qle_bool _ _).
  - unfold on_completion. destruct (pending s) as [|p]; trivial.
    assert (A : fst (attempt proto key (set_debug true c) n clock1)
                = fst (attempt proto key (set_debug false c) n clock1)).
    { unfold attempt. simpl.
      destruct n as [sc sm b|m|]; simpl; trivial.
      destruct ((200 <=? sc)%Z && (sc <? 300)%Z) eqn:Hsc; trivial.
      destruct b as [messages|m]; simpl; trivial.
      assert (K : Object_keys messages = Normal tt).
      { destruct messages; simpl in He |- *; trivial;
          rewrite Hsc in He; discriminate. }
      rewrite K.
      destruct (get proto messages key) as [message|m]; trivial.
      destruct (truthy message); simpl; trivial.
      unfold examine, say. simpl.
      repeat match goal with
             | |- context [if ?b then _ else _] => destruct b; simpl
             end; trivial. }
    destruct (attempt proto key (set_debug true c) n clock1) as [v1 o1].
    destruct (attempt proto key (set_debug false c) n clock1) as [v2 o2].
    simpl in A. subst v2.
    destruct v1 as [|data meta|m]; simpl; trivial.
    now destruct (critical m).
Qed.

(** C4.  A request that fails with status 503 and the status text
    "JSON store unavailable", or on a socket error whose message names a
    host such as parse.example.com, is not retried: the [catch] block
    takes the message for a parse failure and rejects the call. *)
Theorem network_error_can_reject :
  promise (fst (run Object_prototype "k1" (cfg false) startTime
                    [Tick 1700000010003;
                     Completed (Response 503 "JSON store unavailable" (Json (VObj [])))
                               1700000010120 1700000010121]
                    initial))
  = Some (Rejected "Erro ao processar resposta: HTTP 503: JSON store unavailable")
  /\ promise (fst (run Object_prototype "k1" (cfg false) startTime
                       [Tick 1700000010003;
                        Completed (SocketError "getaddrinfo ENOTFOUND parse.example.com")
                                  1700000010120 1700000010121]
                       initial))
     = Some (Rejected "Erro ao processar resposta: Erro de rede: getaddrinfo ENOTFOUND parse.example.com").
Proof. split; reflexivity. Qed.

(** C5.  A negative [timeout] or [retroBack] passes the argument checks:
    no error is thrown and the call goes on to poll (with a negative
    budget, the first firing already resolves with a timeout, no request
    made). *)
Theorem negative_budget_is_accepted :
  (exists c, listenFrom None (VStr "k1") (with_timeout (VNum (-5)) request) = inr ("k1", c)
             /\ timeout c = (-5)%Q
             /\ run Object_prototype "k1" c startTime [Tick 1700000010003] initial
                = ({| attempts := 0; timer := false; pending := 0;
                      promise := Some (Resolved (Timeout (elapsedTime_of 10003) 0)) |}, []))
  /\ (exists c, listenFrom None (VStr "k1") (with_retroBack (VNum (-60)) request) = inr ("k1", c)
                /\ retroBack c = (-60)%Q).
Proof.
  split; eexists; repeat split; reflexivity.
Qed.

(** C7.  An [interval] of 0 is below 1 and yet the interval that takes
    effect is the default of 10 seconds, not 1. *)
Theorem zero_interval_takes_default :
  effective_interval (Some 0) = 10
  /\ exists c, listenFrom None (VStr "k1") (with_interval (Some 0) request) = inr ("k1", c)
               /\ interval c = 10.
Proof.
  split; [reflexivity|]. eexists. split; reflexivity.
Qed.

(** C8.  Two messages that differ in [data] alone: with the string "X"
    the call resolves with a success, with the number 0, the empty string
    or [false] the message fails the structure check and the call stays
    pending. *)
Theorem falsy_data_is_refused :
  let completes (d : value) :=
    fst (on_completion Object_prototype "k1" (cfg false) startTime
                       (carrying (envelope d 1700000010 300))
                       1700000010120 1700000010121 awaiting) in
  promise (completes (VStr "X"))
  = Some (Resolved (Success (VStr "X")
                            (VObj [("timestamp", VNum 1700000010); ("expiration", VNum 300)])
                            (elapsedTime_of 10121) 1))
  /\ promise (completes (VNum 0)) = None
  /\ promise (completes (VStr "")) = None
  /\ promise (completes (VBool false)) = None
  /\ invalid_structure Object_prototype (envelope (VStr "X") 1700000010 300) = false
  /\ invalid_structure Object_prototype (envelope (VNum 0) 1700000010 300) = true.
Proof. repeat split; reflexivity. Qed.

(** C9.  Two calls alike but for [debug], key "parser@example.com", the
    endpoint answering with the JSON text [null]: without [debug] the read
    of the key on [null] throws a message that names the key, which the
    [catch] block takes for a parse failure, and the call is rejected;
    with [debug] the listing of the keys throws first, with a message that
    is not taken so, and the call polls on to its timeout. *)
Theorem debug_changes_the_outcome :
  let events :=
    [Tick 1700000010003;
     Completed (Response 200 "OK" (Json VNull)) 1700000010120 1700000010121;
     Tick 1700000120004] in
  promise (fst (run Object_prototype "parser@example.com" (cfg false) startTime
                    events initial))
  = Some (Rejected "Erro ao processar resposta: Cannot read properties of null (reading 'parser@example.com')")
  /\ promise (fst (run Object_prototype "parser@example.com" (cfg true) startTime
                       events initial))
     = Some (Resolved (Timeout (elapsedTime_of 120004) 1)).
Proof. split; reflexivity. Qed.

End Facts.

(** ** Further properties: arguments, requests, runs *)

Module Further.
Import Js HttpPubSub.

(** *** Searching a message for a word *)

Lemma absent_app (c : ascii) (a b : string) :
  absent c (a ++ b) = absent c a && absent c b.
Proof.
  induction a as [|x a IH]; simpl; [reflexivity|].
  now rewrite IH, andb_assoc.
Qed.

Lemma prefix_absent (c : ascii) (w s : string) (x : ascii) :
  Ascii.eqb c x = false -> String.prefix (String c w) (String x s) = false.
Proof.
  intros N. simpl. destruct (ascii_dec c x) as [->|]; [|reflexivity].
  now rewrite Ascii.eqb_refl in N.
Qed.

(** A word cannot start inside a text that lacks its first character. *)
Lemma includes_skip (c : ascii) (w a b : string) :
  absent c a = true ->
  includes (a ++ b) (String c w) = includes b (String c w).
Proof.
  induction a as [|x a IH]; intros A; [reflexivity|].
  simpl in A. apply andb_true_iff in A. destruct A as (N & A).
  apply negb_true_iff in N.
  change (includes (String x (a ++ b)) (String c w)
          = includes b (String c w)).
  unfold includes at 1. fold includes.
  rewrite (prefix_absent c w (a ++ b) x N). now apply IH.
Qed.

Lemma includes_absent (c : ascii) (w a : string) :
  absent c a = true -> includes a (String c w) = false.
Proof.
  intros A.
  assert (E : a ++ "" = a)
    by (clear; induction a as [|x a IH]; simpl; [reflexivity|]; now rewrite IH).
  rewrite <- E, (includes_skip c w a "" A). reflexivity.
Qed.

(** Decimal numerals hold digits and a sign. *)
Lemma absent_uint (c : ascii) (d : Decimal.uint) :
  absent c "0123456789" = true ->
  absent c (NilEmpty.string_of_uint d) = true.
Proof.
  intros A. cbn in A.
  repeat match type of A with
         | (_ && _) = true => apply andb_true_iff in A; destruct A as [? A]
         end.
  induction d; simpl; rewrite ?IHd; auto with bool;
    match goal with H : ?b = true |- ?b && true = true => now rewrite H end.
Qed.

Lemma absent_show_int (c : ascii) (n : Z) :
  absent c "-0123456789" = true -> absent c (show_int n) = true.
Proof.
  intros A. change (absent c ("-" ++ "0123456789") = true) in A.
  rewrite absent_app in A. apply andb_true_iff in A. destruct A as (S & D).
  pose proof (absent_uint c) as U.
  assert (Z0 : absent c "0" = true).
  { cbn in D |- *. apply andb_true_iff in D. destruct D as (E & _).
    now rewrite E. }
  unfold show_int, NilZero.string_of_int, NilZero.string_of_uint.
  destruct (Z.to_int n) as [d|d].
  - destruct d; auto; now apply U.
  - change (absent c ("-" ++ match d with
                             | Decimal.Nil => "0"
                             | _ => NilEmpty.string_of_uint d
                             end) = true).
    rewrite absent_app, S. simpl. destruct d; auto; now apply U.
Qed.

Lemma critical_skip (a b : string) :
  absent "J" a = true -> absent "p" a = true ->
  critical (a ++ b) = critical b.
Proof.
  intros J P. unfold critical.
  now rewrite (includes_skip "J" "SON" a b J), (includes_skip "p" "arse" a b P).
Qed.

(** *** The arguments *)

(** X1.  When [listenFrom] goes on to poll, the key is a non-empty
    string, [type] is a non-empty string, [timeout] and [retroBack] are
    numbers other than zero, all four taken over unchanged; the interval
    is at least one second, the time allowed to a request is not zero, and
    the endpoint is not empty: the one of the options when that is not
    empty, the one of the environment otherwise. *)
Theorem listenFrom_accepted_config
    (env : option string) (key : value) (o : options) (k : string) (c : config) :
  listenFrom env key o = inr (k, c) ->
  key = VStr k /\ k <> ""
  /\ opt_type o = VStr (type c) /\ type c <> ""
  /\ opt_timeout o = VNum (timeout c) /\ ~ timeout c == 0
  /\ opt_retroBack o = VNum (retroBack c) /\ ~ retroBack c == 0
  /\ 1 <= interval c
  /\ requestTimeout c <> 0%Z
  /\ debug c = opt_debug o
  /\ endpoint c <> ""
  /\ (opt_endpoint o = Some (endpoint c)
      \/ ((opt_endpoint o = None \/ opt_endpoint o = Some "")
          /\ env = Some (endpoint c))).
Proof.
  unfold listenFrom. intros H.
  destruct (negb (truthy key) || negb (typeof key =? "string")) eqn:K; [discriminate|].
  destruct (negb (truthy (opt_type o)) || negb (typeof (opt_type o) =? "string"))
    eqn:Ty; [discriminate|].
  destruct (negb (truthy (opt_timeout o)) || negb (typeof (opt_timeout o) =? "number"))
    eqn:T; [discriminate|].
  destruct (negb (truthy (opt_retroBack o)) || negb (typeof (opt_retroBack o) =? "number"))
    eqn:R; [discriminate|].
  destruct (string_or (opt_endpoint o) env) as [e|] eqn:E; [|discriminate].
  destruct (e =? "") eqn:Ee; [discriminate|].
  injection H as <- <-. simpl.
  apply orb_false_iff in K, Ty, T, R.
  destruct K as (K1 & K2), Ty as (Ty1 & Ty2), T as (T1 & T2), R as (R1 & R2).
  apply negb_false_iff in K1, Ty1, T1, R1.
  assert (Str : forall v, truthy v = true -> negb (typeof v =? "string") = false ->
                          v = VStr (as_string v) /\ as_string v <> "").
  { intros v V1 V2. destruct v; try discriminate. simpl in *. split; trivial.
    intros ->. discriminate. }
  assert (Num : forall v, truthy v = true -> negb (typeof v =? "number") = false ->
                          v = VNum (as_number v) /\ ~ as_number v == 0).
  { intros v V1 V2. destruct v as [| | |q| | | |]; try discriminate. simpl in *.
    split; trivial. intros Z. apply Qeq_bool_iff in Z. rewrite Z in V1. discriminate. }
  destruct (Str _ K1 K2) as (? & ?), (Str _ Ty1 Ty2) as (? & ?).
  destruct (Num _ T1 T2) as (? & ?), (Num _ R1 R2) as (? & ?).
  repeat match goal with |- _ /\ _ => split end; trivial.
  - unfold effective_interval.
    destruct (Qlt_bool (number_or (opt_interval o) 10) 1) eqn:L.
    + apply Qle_refl.
    + now apply Facts.Qlt_bool_false in L.
  - unfold int_or. destruct (opt_requestTimeout o) as [n|]; [|discriminate].
    destruct (n =? 0)%Z eqn:N; [discriminate|]. now apply Z.eqb_neq.
  - intros ->. discriminate.
  - unfold string_or in E. destruct (opt_endpoint o) as [x|].
    + destruct (x =? "") eqn:X.
      * apply String.eqb_eq in X. subst x. right. auto.
      * left. congruence.
    + right. auto.
Qed.

(** X2.  A call with a non-empty key and type, a positive [timeout] and
    [retroBack], and a non-empty endpoint in the options or in the
    environment is never refused. *)
Theorem listenFrom_accepts_well_formed
    (env : option string) (o : options) (k ty e : string) (t r : Q) :
  k <> "" -> ty <> "" -> 0 < t -> 0 < r -> e <> "" ->
  opt_type o = VStr ty -> opt_timeout o = VNum t -> opt_retroBack o = VNum r ->
  opt_endpoint o = Some e \/ env = Some e ->
  exists c, listenFrom env (VStr k) o = inr (k, c)
            /\ type c = ty /\ timeout c = t /\ retroBack c = r.
Proof.
  intros K Ty T R E Hty Ht Hr He. unfold listenFrom. rewrite Hty, Ht, Hr. simpl.
  apply String.eqb_neq in K, Ty. rewrite K, Ty. simpl.
  assert (Nz : forall q, 0 < q -> Qeq_bool q 0 = false).
  { intros q L. destruct (Qeq_bool q 0) eqn:Z; trivial.
    apply Qeq_bool_iff in Z. rewrite Z in L. exfalso. revert L. apply Qlt_irrefl. }
  rewrite (Nz t T), (Nz r R). simpl.
  assert (S : exists e', string_or (opt_endpoint o) env = Some e' /\ e' <> "").
  { unfold string_or. destruct (opt_endpoint o) as [x|] eqn:X.
    - destruct (x =? "") eqn:X0.
      + destruct He as [He|He]; [injection He as ->|eauto].
        apply String.eqb_neq in E. congruence.
      + apply String.eqb_neq in X0. eauto.
    - destruct He as [He|He]; [discriminate|eauto]. }
  destruct S as (e' & -> & E'). apply String.eqb_neq in E'. rewrite E'.
  eexists. split; [reflexivity|]. simpl. auto.
Qed.

(** X3.  The refusals, in the order the checks are made: a key that is
    not a non-empty string; then a [type] that is not one; then a
    [timeout] that is zero or not a number; then such a [retroBack]; then
    no endpoint in the options nor in the environment. *)
Theorem listenFrom_refusals
    (env : option string) (key : value) (o : options) (k ty : string) (t r : Q) :
  ((forall x, key = VStr x -> x = "") ->
   listenFrom env key o = inl "Key deve ser uma string não vazia")
  /\ (k <> "" ->
      (forall x, opt_type o = VStr x -> x = "") ->
      listenFrom env (VStr k) o = inl "options.type deve ser uma string não vazia")
  /\ (k <> "" -> opt_type o = VStr ty -> ty <> "" ->
      (forall q, opt_timeout o = VNum q -> q == 0) ->
      listenFrom env (VStr k) o = inl "options.timeout deve ser um número maior que 0")
  /\ (k <> "" -> opt_type o = VStr ty -> ty <> "" ->
      opt_timeout o = VNum t -> ~ t == 0 ->
      (forall q, opt_retroBack o = VNum q -> q == 0) ->
      listenFrom env (VStr k) o = inl "options.retroBack deve ser um número maior que 0")
  /\ (k <> "" -> opt_type o = VStr ty -> ty <> "" ->
      opt_timeout o = VNum t -> ~ t == 0 ->
      opt_retroBack o = VNum r -> ~ r == 0 ->
      (opt_endpoint o = None \/ opt_endpoint o = Some "") ->
      (env = None \/ env = Some "") ->
      listenFrom env (VStr k) o
      = inl "Endpoint HTTP não definido. Configure a variável de ambiente HTTP_PUB_SUB_ENDPOINT ou passe via options.endpoint").
Proof.
  assert (NotStr : forall v, (forall x, v = VStr x -> x = "") ->
                             negb (truthy v) || negb (typeof v =? "string") = true).
  { intros v H. destruct v as [| | | |x| | |]; simpl; rewrite ?orb_true_r; trivial.
    now rewrite (H x eq_refl). }
  assert (NotNum : forall v, (forall q, v = VNum q -> q == 0) ->
                             negb (truthy v) || negb (typeof v =? "number") = true).
  { intros v H. destruct v as [| | |q| | | |]; simpl; rewrite ?orb_true_r; trivial.
    pose proof (H q eq_refl) as Z. apply Qeq_bool_iff in Z. now rewrite Z. }
  assert (Nz : forall q, ~ q == 0 -> Qeq_bool q 0 = false).
  { intros q N. destruct (Qeq_bool q 0) eqn:Z; trivial.
    apply Qeq_bool_iff in Z. contradiction. }
  split; [|split; [|split; [|split]]].
  - intros H. unfold listenFrom. now rewrite (NotStr key H).
  - intros K H. unfold listenFrom. apply String.eqb_neq in K. simpl. rewrite K. simpl.
    now rewrite (NotStr _ H).
  - intros K Hty Ty H. unfold listenFrom. apply String.eqb_neq in K, Ty.
    simpl. rewrite K. rewrite (NotNum _ H). rewrite Hty. simpl. now rewrite Ty.
  - intros K Hty Ty Ht T H. unfold listenFrom. apply String.eqb_neq in K, Ty.
    simpl. rewrite K. rewrite (NotNum _ H). rewrite Hty, Ht. simpl.
    now rewrite Ty, (Nz t T).
  - intros K Hty Ty Ht T Hr R He Henv. unfold listenFrom. apply String.eqb_neq in K, Ty.
    simpl. rewrite K. rewrite Hty, Ht, Hr. simpl. rewrite Ty, (Nz t T), (Nz r R). simpl.
    destruct He as [->| ->], Henv as [->| ->]; reflexivity.
Qed.

(** *** The fetcher *)

Lemma resolved_by_2xx (ms : Z) (n : network) (b : body) :
  makeHttpRequest ms n = Normal b
  <-> exists sc sm, n = Response sc sm b /\ (200 <= sc < 300)%Z.
Proof.
  split.
  - destruct n as [sc sm d|m|]; simpl; try discriminate.
    destruct ((200 <=? sc)%Z && (sc <? 300)%Z) eqn:S; [|discriminate].
    intros [= ->]. exists sc, sm. split; trivial.
    apply andb_true_iff in S. destruct S as (L & U).
    apply Z.leb_le in L. apply Z.ltb_lt in U. lia.
  - intros (sc & sm & -> & L & U). simpl.
    apply Z.leb_le in L. apply Z.ltb_lt in U. now rewrite L, U.
Qed.

Lemma header_set_prop (k v k' : string) (props : list (string * string)) :
  header (set_prop k v props) k' = if k =? k' then Some v else header props k'.
Proof.
  induction props as [|[k0 v0] props IH]; simpl.
  - reflexivity.
  - destruct (k0 =? k) eqn:E0; simpl.
    + apply String.eqb_eq in E0. subst k0. now destruct (k =? k').
    + rewrite IH. destruct (k0 =? k') eqn:E1; trivial.
      apply String.eqb_eq in E1. subst k0. now rewrite String.eqb_sym, E0.
Qed.

Lemma header_spread_other (k : string) (source target : list (string * string)) :
  ~ In k (map fst source) -> header (spread target source) k = header target k.
Proof.
  unfold spread. revert target.
  induction source as [|[k0 v0] source IH]; intros target N; [reflexivity|].
  simpl in *. rewrite IH by tauto. rewrite header_set_prop.
  destruct (k0 =? k) eqn:E; trivial. apply String.eqb_eq in E. tauto.
Qed.

(** X6.  In the request that [makeHttpRequest] builds, a header given by
    the caller has the caller's value, also when it bears the name of one
    of the two fixed headers; a header the caller does not give is the
    fixed one, if there is one; and the method is GET whatever the caller's
    headers are. *)
Theorem caller_headers_override
    (parsedUrl : URL) (hs : list (string * string)) (ms : Z) (k v : string) :
  NoDup (map fst hs) ->
  let sent := Request.headers (Request.build parsedUrl hs ms) in
  (In (k, v) hs -> header sent k = Some v)
  /\ (~ In k (map fst hs) ->
      header sent k
      = header [("User-Agent", "@felinto-dev/http-pub-sub");
                ("Accept", "application/json")] k)
  /\ Request.method (Request.build parsedUrl hs ms) = "GET".
Proof.
  intros D. simpl. split; [|split; [apply header_spread_other|reflexivity]].
  generalize [("User-Agent", "@felinto-dev/http-pub-sub"); ("Accept", "application/json")].
  unfold spread. induction hs as [|[k0 v0] hs IH]; intros target I; [contradiction|].
  simpl in *. inversion D as [|? ? N D']; subst.
  destruct I as [[= -> ->]|I].
  - fold (spread (set_prop k v target) hs).
    rewrite header_spread_other by exact N.
    rewrite header_set_prop. now rewrite String.eqb_refl.
  - now apply IH.
Qed.

(** *** Which failures end the call *)

Lemma critical_of_timeout (ms : Z) :
  critical ("Timeout da requisição (" ++ show_int ms ++ "ms)") = false.
Proof.
  unfold critical.
  rewrite !includes_absent; trivial;
    rewrite !absent_app, absent_show_int; reflexivity.
Qed.

Lemma critical_of_status (sc : Z) (sm : string) :
  critical ("HTTP " ++ show_int sc ++ ": " ++ sm) = critical sm.
Proof.
  change ("HTTP " ++ show_int sc ++ ": " ++ sm)
    with ("HTTP " ++ (show_int sc ++ (": " ++ sm))).
  rewrite !critical_skip; trivial; try reflexivity; now apply absent_show_int.
Qed.

Lemma critical_of_socket (m : string) :
  critical ("Erro de rede: " ++ m) = critical m.
Proof.
  now apply critical_skip.
Qed.

(** X7.  Of the errors of the fetcher, the [catch] block takes the one of
    a request timeout never for critical, and the ones of a bad status or
    of a socket error exactly when the status text, or the socket's
    message, holds the word JSON or the word parse. *)
Theorem fetch_errors_classified (ms sc : Z) (sm m : string) :
  critical ("Timeout da requisição (" ++ show_int ms ++ "ms)") = false
  /\ critical ("HTTP " ++ show_int sc ++ ": " ++ sm) = critical sm
  /\ critical ("Erro de rede: " ++ m) = critical m.
Proof.
  split; [apply critical_of_timeout|].
  split; [apply critical_of_status|apply critical_of_socket].
Qed.

(** *** Runs of a call *)

Lemma elapsedTime_of_lower (ms : Z) : inject_Z ms / 1000 - (1 # 20) < elapsedTime_of ms.
Proof.
  unfold elapsedTime_of, Math_round.
  pose proof (Qlt_floor (inject_Z ms / 1000 * 10 + (1 # 2))) as F.
  rewrite inject_Z_plus in F.
  set (r := inject_Z (Qfloor (inject_Z ms / 1000 * 10 + (1 # 2)))) in *.
  set (x := inject_Z ms / 1000) in *.
  change (inject_Z 1) with 1 in F. clearbody r x.
  apply Qlt_shift_div_l; [reflexivity|]. lra.
Qed.

Lemma elapsedTime_of_upper (ms : Z) : elapsedTime_of ms <= inject_Z ms / 1000 + (1 # 20).
Proof.
  unfold elapsedTime_of, Math_round.
  pose proof (Qfloor_le (inject_Z ms / 1000 * 10 + (1 # 2))) as F.
  set (r := inject_Z (Qfloor (inject_Z ms / 1000 * 10 + (1 # 2)))) in *.
  set (x := inject_Z ms / 1000) in *.
  clearbody r x.
  apply Qle_shift_div_r; [reflexivity|]. lra.
Qed.

(** X8.  The elapsed time that an outcome reports is the elapsed
    milliseconds in seconds to within a twentieth of a second, and it
    grows with them. *)
Theorem elapsedTime_of_bounds (ms ms' : Z) :
  inject_Z ms / 1000 - (1 # 20) < elapsedTime_of ms
  /\ elapsedTime_of ms <= inject_Z ms / 1000 + (1 # 20)
  /\ ((ms <= ms')%Z -> elapsedTime_of ms <= elapsedTime_of ms').
Proof.
  split; [apply elapsedTime_of_lower|]. split; [apply elapsedTime_of_upper|].
  intros L. unfold elapsedTime_of, Math_round.
  apply Qmult_le_compat_r; [|discriminate].
  rewrite <- Zle_Qle. apply Qfloor_resp_le.
  apply Qplus_le_l. apply Qmult_le_compat_r; [|discriminate].
  apply Qmult_le_compat_r; [|discriminate].
  now rewrite <- Zle_Qle.
Qed.

Section Call.

Variable proto : value -> string -> value.
Variable key : string.
Variable cfg : config.
Variable startTime : Z.

Local Abbreviation examine := (examine proto cfg).
Local Abbreviation attempt := (attempt proto key cfg).
Local Abbreviation on_tick := (on_tick cfg startTime).
Local Abbreviation on_completion := (on_completion proto key cfg startTime).
Local Abbreviation step := (step proto key cfg startTime).
Local Abbreviation run := (run proto key cfg startTime).
Local Abbreviation invalid_structure := (invalid_structure proto).
Local Abbreviation quiet := (quiet proto key cfg startTime).

(** What a completion does, by what the [try] block comes to. *)
Lemma on_completion_by_verdict (n : network) (clock1 clock2 : Z) (s : state) :
  pending s <> O ->
  let s' := fst (on_completion n clock1 clock2 s) in
  match fst (attempt n clock1) with
  | Continue => promise s' = promise s /\ timer s' = timer s
  | Found data meta =>
      timer s' = false
      /\ promise s'
         = match promise s with
           | Some r => Some r
           | None => Some (Resolved (Success data meta
                                             (elapsedTime_of (clock2 - startTime))
                                             (attempts s)))
           end
  | Raised m =>
      if critical m then
        timer s' = false
        /\ promise s'
           = match promise s with
             | Some r => Some r
             | None => Some (Rejected ("Erro ao processar resposta: " ++ m))
             end
      else promise s' = promise s /\ timer s' = timer s
  end
  /\ attempts s' = attempts s /\ pending s' = Nat.pred (pending s).
Proof.
  intros P. unfold HttpPubSub.on_completion.
  destruct (pending s) as [|p]; [congruence|].
  destruct (HttpPubSub.attempt proto key cfg n clock1) as [[|data meta|m] out]; simpl.
  - auto.
  - unfold settle. simpl. destruct (promise s) eqn:E; simpl; auto.
  - destruct (critical m); simpl; auto.
    unfold settle. simpl. destruct (promise s) eqn:E; simpl; auto.
Qed.

(** What the [try] block has seen when it finds a message. *)
Lemma attempt_found (n : network) (clock : Z) (data meta : value) :
  fst (attempt n clock) = Found data meta ->
  exists sc sm messages message,
    n = Response sc sm (Json messages)
    /\ (200 <= sc < 300)%Z
    /\ get proto messages key = Normal message
    /\ truthy message = true
    /\ invalid_structure message = false
    /\ prop proto message "type" = VStr (type cfg)
    /\ data = prop proto message "data"
    /\ meta = prop proto message "meta".
Proof.
  unfold HttpPubSub.attempt. intros H.
  destruct (makeHttpRequest (requestTimeout cfg) n) as [response|m] eqn:M;
    [|discriminate].
  apply resolved_by_2xx in M. destruct M as (sc & sm & -> & Hsc).
  destruct response as [messages|m]; simpl in H; [|discriminate].
  destruct (if debug cfg then Object_keys messages else Normal tt); [|discriminate].
  destruct (get proto messages key) as [message|m] eqn:G; [|discriminate].
  destruct (truthy message) eqn:T; simpl in H; [|discriminate].
  destruct (HttpPubSub.examine proto cfg clock message) as [v out] eqn:E.
  simpl in H. subst v.
  exists sc, sm, messages, message.
  unfold HttpPubSub.examine in E.
  destruct (invalid_structure message) eqn:I; [discriminate|].
  destruct (strict_neq_string _ _) eqn:Ty; [discriminate|].
  apply Facts.strict_neq_string_false in Ty.
  destruct (Qlt_bool (_ + _) _); [discriminate|].
  destruct (Qlt_bool _ (_ - _)); [discriminate|].
  injection E as <- <- _. auto 10.
Qed.

Lemma step_promise_stable (e : event) (s : state) (r : settlement) :
  promise s = Some r -> promise (fst (step e s)) = Some r.
Proof.
  intros P. destruct e as [clock|n clock1 clock2]; simpl.
  - destruct (Facts.on_tick_cases cfg startTime clock s) as (Off & Out & Go).
    destruct (timer s) eqn:T.
    + destruct (Qlt_le_dec (inject_Z (clock - startTime)) (timeoutMs cfg)) as [L|L].
      * destruct Go as (_ & _ & _ & P'); trivial.
        { intro H. exact (Qlt_not_le _ _ L H). }
        congruence.
      * destruct Out as (_ & _ & _ & P'); trivial. rewrite P', P. reflexivity.
    + destruct Off as (E & _); trivial. now rewrite E.
  - destruct (Facts.on_completion_cases proto key cfg startTime n clock1 clock2 s)
      as (_ & _ & [(P' & _)|(_ & r' & P' & _)]).
    + congruence.
    + rewrite P', P. reflexivity.
Qed.

Lemma run_promise_stable (es : list event) (s : state) (r : settlement) :
  promise s = Some r -> promise (fst (run es s)) = Some r.
Proof.
  revert s. induction es as [|e es IH]; intros s P; [exact P|].
  rewrite Facts.run_cons. simpl. apply IH. now apply step_promise_stable.
Qed.

(** A settled promise was settled by one event of the run, from a
    pending call. *)
Lemma settled_by (es : list event) (s : state) (r : settlement) :
  promise s = None ->
  promise (fst (run es s)) = Some r ->
  exists es1 e es2,
    es = (es1 ++ e :: es2)%list
    /\ promise (fst (run es1 s)) = None
    /\ promise (fst (step e (fst (run es1 s)))) = Some r.
Proof.
  revert s. induction es as [|e es IH]; intros s P R; [simpl in R; congruence|].
  rewrite Facts.run_cons in R. simpl in R.
  destruct (promise (fst (step e s))) as [r'|] eqn:P1.
  - rewrite (run_promise_stable es _ r' P1) in R. injection R as ->.
    exists [], e, es. simpl. auto.
  - destruct (IH _ P1 R) as (es1 & e' & es2 & -> & N & S).
    exists (e :: es1), e', es2. rewrite Facts.run_cons. simpl. auto.
Qed.

Lemma step_counted (e : event) (s : state) : counted s -> counted (fst (step e s)).
Proof.
  unfold counted. intros C. destruct e as [clock|n clock1 clock2]; simpl.
  - unfold HttpPubSub.on_tick. destruct (timer s); simpl; trivial.
    destruct (Qle_bool _ _); simpl.
    + unfold settle. simpl. now destruct (promise s).
    + lia.
  - destruct (pending s) as [|p] eqn:P.
    + unfold HttpPubSub.on_completion. rewrite P. simpl. rewrite P. exact C.
    + destruct (on_completion_by_verdict n clock1 clock2 s) as (_ & A & Q);
        [congruence|].
      rewrite A, Q, P. simpl. lia.
Qed.

Lemma run_counted (es : list event) (s : state) : counted s -> counted (fst (run es s)).
Proof.
  revert s. induction es as [|e es IH]; intros s C; [exact C|].
  rewrite Facts.run_cons. simpl. apply IH, step_counted, C.
Qed.

(** X9.  A request that runs into its own timeout never ends the call:
    the promise, the timer and the counter stay as they are, whatever the
    time allowed to a request. *)
Theorem request_timeout_keeps_polling (clock1 clock2 : Z) (s : state) :
  let s' := fst (on_completion SocketTimeout clock1 clock2 s) in
  promise s' = promise s /\ timer s' = timer s /\ attempts s' = attempts s.
Proof.
  apply (Facts.failure_keeps_polling proto key cfg startTime SocketTimeout
           ("Timeout da requisição (" ++ show_int (requestTimeout cfg) ++ "ms)")).
  - reflexivity.
  - apply critical_of_timeout.
Qed.

(** X10.  For a pending call, a response with a status outside 200 to
    299 is passed over when its status text holds neither JSON nor parse,
    and rejects the call, clearing the timer, when it holds one of them. *)
Theorem bad_status_settles_iff
    (sc : Z) (sm : string) (b : body) (clock1 clock2 : Z) (s : state) :
  promise s = None -> pending s <> O ->
  (sc < 200 \/ 300 <= sc)%Z ->
  let s' := fst (on_completion (Response sc sm b) clock1 clock2 s) in
  (critical sm = false -> promise s' = None /\ timer s' = timer s)
  /\ (critical sm = true ->
      promise s'
      = Some (Rejected ("Erro ao processar resposta: HTTP " ++ show_int sc ++ ": " ++ sm))
      /\ timer s' = false)
  /\ attempts s' = attempts s.
Proof.
  intros P Q Hsc s'.
  pose proof (on_completion_by_verdict (Response sc sm b) clock1 clock2 s Q) as V.
  fold s' in V.
  assert (A : fst (attempt (Response sc sm b) clock1)
              = Raised ("HTTP " ++ show_int sc ++ ": " ++ sm)).
  { unfold HttpPubSub.attempt. cbn [makeHttpRequest].
    replace ((200 <=? sc)%Z && (sc <? 300)%Z) with false; [reflexivity|].
    symmetry. apply andb_false_iff.
    destruct Hsc; [left; apply Z.leb_gt|right; apply Z.ltb_ge]; lia. }
  rewrite A, critical_of_status, P in V. destruct V as (V & At & _).
  split; [|split]; trivial.
  - intros C. rewrite C in V. tauto.
  - intros C. rewrite C in V. tauto.
Qed.


Lemma step_quiet (e : event) (s : state) :
  promise s = None -> timer s = true -> quiet e = true ->
  let s' := fst (step e s) in
  promise s' = None /\ timer s' = true
  /\ attempts s' = (attempts s + Z.of_nat (ticks [e]))%Z
  /\ fetches (snd (step e s)) = ticks [e].
Proof.
  intros P T Q. destruct e as [clock|n clock1 clock2]; simpl in *.
  - destruct (Facts.on_tick_cases cfg startTime clock s) as (_ & _ & Go).
    destruct Go as (A & F & T' & P'); trivial.
    + intros L. apply Qle_bool_iff in L. rewrite L in Q. discriminate.
    + rewrite A, F, T', P'. auto.
  - destruct (Facts.on_completion_cases proto key cfg startTime n clock1 clock2 s)
      as (A & F & _).
    rewrite A, F, Z.add_0_r.
    destruct (pending s) as [|p] eqn:Pe.
    + unfold HttpPubSub.on_completion. rewrite Pe. simpl. auto.
    + destruct (on_completion_by_verdict n clock1 clock2 s) as (V & _);
        [congruence|].
      destruct (fst (attempt n clock1)) as [|data meta|m]; [|discriminate|].
      * destruct V as (P' & T'). rewrite P', T'. auto.
      * apply negb_true_iff in Q. rewrite Q in V.
        destruct V as (P' & T'). rewrite P', T'. auto.
Qed.

Lemma ticks_app (a b : list event) : ticks (a ++ b) = (ticks a + ticks b)%nat.
Proof.
  induction a as [|[clock|n c1 c2] a IH]; simpl; auto.
Qed.

Lemma run_quiet (es : list event) (s : state) :
  promise s = None -> timer s = true -> forallb quiet es = true ->
  let s' := fst (run es s) in
  promise s' = None /\ timer s' = true
  /\ attempts s' = (attempts s + Z.of_nat (ticks es))%Z
  /\ fetches (snd (run es s)) = ticks es.
Proof.
  revert s. induction es as [|e es IH]; intros s P T Q.
  - simpl. rewrite Z.add_0_r. auto.
  - simpl in Q. apply andb_true_iff in Q. destruct Q as (Qe & Qes).
    rewrite Facts.run_cons. simpl fst. simpl snd.
    destruct (step_quiet e s P T Qe) as (P1 & T1 & A1 & F1).
    destruct (IH _ P1 T1 Qes) as (P2 & T2 & A2 & F2).
    cbv zeta. rewrite Facts.fetches_app, F1, F2, A2, A1.
    change (e :: es) with ([e] ++ es)%list. rewrite ticks_app, Nat2Z.inj_add.
    repeat split; trivial. lia.
Qed.


(** X13.  A call that has resolved with a success did so on the
    completion of a request with a 2xx response whose JSON holds, under
    the key, a truthy entry that passes the structure check and has the
    requested type; the success hands over the [data] and [meta] of that
    entry, reports the time elapsed at that completion, and at least one
    attempt. *)
Theorem success_comes_from_fetched_message
    (es : list event) (data meta : value) (elapsed : Q) (n : Z) :
  promise (fst (run es initial)) = Some (Resolved (Success data meta elapsed n)) ->
  (exists sc sm messages message clock1 clock2,
      In (Completed (Response sc sm (Json messages)) clock1 clock2) es
      /\ (200 <= sc < 300)%Z
      /\ get proto messages key = Normal message
      /\ truthy message = true
      /\ invalid_structure message = false
      /\ prop proto message "type" = VStr (type cfg)
      /\ data = prop proto message "data"
      /\ meta = prop proto message "meta"
      /\ elapsed = elapsedTime_of (clock2 - startTime))
  /\ (1 <= n)%Z.
Proof.
  intros R.
  destruct (settled_by es initial _ eq_refl R) as (es1 & e & es2 & -> & P & S).
  pose proof (run_counted es1 initial) as C. unfold counted in C. simpl in C.
  specialize (C (Z.le_refl 0)).
  set (s := fst (run es1 initial)) in *.
  destruct e as [clock|e clock1 clock2]; simpl in S.
  - exfalso.
    destruct (Facts.on_tick_cases cfg startTime clock s) as (Off & Out & Go).
    destruct (timer s) eqn:T.
    + destruct (Qlt_le_dec (inject_Z (clock - startTime)) (timeoutMs cfg)) as [L|L].
      * destruct Go as (_ & _ & _ & P'); trivial.
        { intro H. exact (Qlt_not_le _ _ L H). }
        congruence.
      * destruct Out as (_ & _ & _ & P'); trivial. rewrite P in P'. congruence.
    + destruct Off as (E & _); trivial. rewrite E in S. congruence.
  - destruct (pending s) as [|p] eqn:Pe.
    { unfold HttpPubSub.on_completion in S. rewrite Pe in S. simpl in S. congruence. }
    destruct (on_completion_by_verdict e clock1 clock2 s) as (V & _); [congruence|].
    destruct (fst (attempt e clock1)) as [|d m|msg] eqn:A.
    + destruct V as (V & _). congruence.
    + destruct V as (_ & V). rewrite P, S in V. injection V as -> -> -> ->.
      destruct (attempt_found e clock1 d m A)
        as (sc & sm & messages & message & -> & Hsc & G & T & I & Acc & -> & ->).
      split; [|lia].
      exists sc, sm, messages, message, clock1, clock2.
      split; [apply in_elt|]. auto 12.
    + destruct (critical msg); destruct V as (V1 & V2); rewrite ?P in *; congruence.
Qed.

(** X14.  A call is only ever rejected, once polling has started, with
    the processing error built from an error raised on the completion of a
    request whose message holds the word JSON or the word parse. *)
Theorem rejection_comes_from_critical_error (es : list event) (message : string) :
  promise (fst (run es initial)) = Some (Rejected message) ->
  exists n clock1 clock2 m,
    In (Completed n clock1 clock2) es
    /\ fst (attempt n clock1) = Raised m
    /\ critical m = true
    /\ message = "Erro ao processar resposta: " ++ m.
Proof.
  intros R.
  destruct (settled_by es initial _ eq_refl R) as (es1 & e & es2 & -> & P & S).
  set (s := fst (run es1 initial)) in *.
  destruct e as [clock|e clock1 clock2]; simpl in S.
  - exfalso.
    destruct (Facts.on_tick_cases cfg startTime clock s) as (Off & Out & Go).
    destruct (timer s) eqn:T.
    + destruct (Qlt_le_dec (inject_Z (clock - startTime)) (timeoutMs cfg)) as [L|L].
      * destruct Go as (_ & _ & _ & P'); trivial.
        { intro H. exact (Qlt_not_le _ _ L H). }
        congruence.
      * destruct Out as (_ & _ & _ & P'); trivial. rewrite P in P'. congruence.
    + destruct Off as (E & _); trivial. rewrite E in S. congruence.
  - destruct (pending s) as [|p] eqn:Pe.
    { unfold HttpPubSub.on_completion in S. rewrite Pe in S. simpl in S. congruence. }
    destruct (on_completion_by_verdict e clock1 clock2 s) as (V & _); [congruence|].
    destruct (fst (attempt e clock1)) as [|d m|msg] eqn:A.
    + destruct V as (V & _). congruence.
    + destruct V as (_ & V). rewrite P, S in V. discriminate.
    + destruct (critical msg) eqn:C.
      * destruct V as (_ & V). rewrite P, S in V. injection V as ->.
        exists e, clock1, clock2, msg. repeat split; trivial. apply in_elt.
      * destruct V as (V & _). congruence.
Qed.

(** X15.  A timeout never reports an elapsed time more than a twentieth
    of a second short of the budget. *)
Theorem timeout_reports_the_budget (es : list event) (elapsed : Q) (n : Z) :
  promise (fst (run es initial)) = Some (Resolved (Timeout elapsed n)) ->
  timeout cfg - (1 # 20) < elapsed.
Proof.
  intros R.
  destruct (settled_by es initial _ eq_refl R) as (es1 & e & es2 & -> & P & S).
  set (s := fst (run es1 initial)) in *.
  destruct e as [clock|e clock1 clock2]; simpl in S.
  - destruct (Facts.on_tick_cases cfg startTime clock s) as (Off & Out & Go).
    destruct (timer s) eqn:T.
    + destruct (Qlt_le_dec (inject_Z (clock - startTime)) (timeoutMs cfg)) as [L|L].
      * destruct Go as (_ & _ & _ & P'); trivial.
        { intro H. exact (Qlt_not_le _ _ L H). }
        congruence.
      * destruct Out as (_ & _ & _ & P'); trivial.
        rewrite P, S in P'. injection P' as -> _.
        pose proof (elapsedTime_of_lower (clock - startTime)) as B.
        unfold timeoutMs in L.
        set (x := inject_Z (clock - startTime)) in *. clearbody x.
        set (y := elapsedTime_of (clock - startTime)) in *. clearbody y.
        assert (D : timeout cfg <= x / 1000).
        { apply Qle_shift_div_l; [reflexivity|exact L]. }
        lra.
    + destruct Off as (E & _); trivial. rewrite E in S. congruence.
  - exfalso.
    destruct (Facts.on_completion_cases proto key cfg startTime e clock1 clock2 s)
      as (_ & _ & [(P' & _)|(_ & r & P' & N)]).
    + congruence.
    + rewrite P, S in P'. injection P' as <-. eapply N. reflexivity.
Qed.

(** X17.  For a pending call, two 2xx responses that hold under the key
    messages alike but for [data], both values of [data] truthy, have the
    same effect: either both leave the call pending, or both resolve it
    with a success that hands over its own [data] untouched. *)
Theorem data_does_not_decide
    (s : state) (sc : Z) (sm : string) (messages1 messages2 ty d1 d2 me : value)
    (clock1 clock2 : Z) :
  promise s = None -> pending s <> O ->
  (200 <= sc < 300)%Z ->
  get proto messages1 key = Normal (shaped ty d1 me) ->
  get proto messages2 key = Normal (shaped ty d2 me) ->
  truthy d1 = true -> truthy d2 = true ->
  let s1 := fst (on_completion (Response sc sm (Json messages1)) clock1 clock2 s) in
  let s2 := fst (on_completion (Response sc sm (Json messages2)) clock1 clock2 s) in
  (promise s1 = None /\ promise s2 = None)
  \/ (promise s1
      = Some (Resolved (Success d1 me (elapsedTime_of (clock2 - startTime)) (attempts s)))
      /\ promise s2
         = Some (Resolved (Success d2 me (elapsedTime_of (clock2 - startTime)) (attempts s)))).
Proof.
  intros P Q Hsc G1 G2 T1 T2 s1 s2.
  pose proof (on_completion_by_verdict (Response sc sm (Json messages1)) clock1 clock2 s Q)
    as (V1 & _).
  pose proof (on_completion_by_verdict (Response sc sm (Json messages2)) clock1 clock2 s Q)
    as (V2 & _).
  fold s1 in V1. fold s2 in V2.
  rewrite (Facts.attempt_examines proto key cfg sc sm messages1 _ clock1 Hsc G1 eq_refl)
    in V1.
  rewrite (Facts.attempt_examines proto key cfg sc sm messages2 _ clock1 Hsc G2 eq_refl)
    in V2.
  destruct (Facts.data_is_handed_over proto cfg clock1 ty d1 d2 me T1 T2)
    as [(E1 & E2)|(E1 & E2)]; rewrite E1 in V1; rewrite E2 in V2.
  - left. destruct V1 as (V1 & _), V2 as (V2 & _). split; congruence.
  - right. destruct V1 as (_ & V1), V2 as (_ & V2). rewrite P in V1, V2. auto.
Qed.

(** X18.  As long as no 2xx response has the JSON text [null] for a
    body, [debug] changes nothing of a run but what is printed: the
    promise, the timer and the counter end up the same with it and
    without. *)
Theorem debug_leaves_the_outcome (es : list event) (s : state) :
  forallb (fun e => negb (answers_null e)) es = true ->
  let with_debug := fst (HttpPubSub.run proto key (set_debug true cfg) startTime es s) in
  let without := fst (HttpPubSub.run proto key (set_debug false cfg) startTime es s) in
  promise with_debug = promise without
  /\ timer with_debug = timer without
  /\ attempts with_debug = attempts without.
Proof.
  intros H. simpl.
  now rewrite (Facts.debug_only_prints proto key cfg startTime es s H).
Qed.

End Call.

(** *** The scenarios, again *)

Import Scenario.

Lemma listenFrom_accepted_config_witness :
  1 <= interval (cfg false) /\ endpoint (cfg false) <> ""
  /\ opt_endpoint request = Some (endpoint (cfg false)).
Proof.
  destruct (listenFrom_accepted_config None (VStr "k1") request "k1" (cfg false) eq_refl)
    as (_ & _ & _ & _ & _ & _ & _ & _ & I & _ & _ & E & [O|(_ & O)]).
  - exact (conj I (conj E O)).
  - discriminate O.
Defined.

Lemma listenFrom_accepts_well_formed_witness :
  exists c, listenFrom None (VStr "k1") request = inr ("k1", c)
            /\ type c = "t" /\ timeout c = 120 /\ retroBack c = 60.
Proof.
  apply (listenFrom_accepts_well_formed None request "k1" "t"
           "http://bridge.test/messages" 120 60).
  - discriminate.
  - discriminate.
  - reflexivity.
  - reflexivity.
  - discriminate.
  - reflexivity.
  - reflexivity.
  - reflexivity.
  - left. reflexivity.
Defined.

Lemma listenFrom_refusals_witness :
  listenFrom None (VNum 5) request = inl "Key deve ser uma string não vazia"
  /\ listenFrom None (VStr "k1") (with_timeout (VStr "120") request)
     = inl "options.timeout deve ser um número maior que 0".
Proof.
  split.
  - apply (proj1 (listenFrom_refusals None (VNum 5) request "k1" "t" 120 60)).
    intros x E. discriminate E.
  - apply (proj1 (proj2 (proj2 (listenFrom_refusals None (VStr "k1")
                                  (with_timeout (VStr "120") request) "k1" "t" 120 60)))).
    + discriminate.
    + reflexivity.
    + discriminate.
    + intros q E. discriminate E.
Defined.

Lemma caller_headers_override_witness :
  let sent := Request.headers
                (Request.build bridge [("Accept", "text/plain"); ("X-Token", "abc")] 5000) in
  header sent "Accept" = Some "text/plain"
  /\ header sent "User-Agent" = Some "@felinto-dev/http-pub-sub".
Proof.
  assert (D : NoDup (map fst [("Accept", "text/plain"); ("X-Token", "abc")])).
  { simpl. repeat constructor; simpl; intuition discriminate. }
  split.
  - apply (proj1 (caller_headers_override bridge _ 5000 "Accept" "text/plain" D)).
    simpl. auto.
  - apply (proj1 (proj2 (caller_headers_override bridge _ 5000 "User-Agent" "" D))).
    simpl. intuition discriminate.
Defined.

Lemma elapsedTime_of_bounds_witness : elapsedTime_of 10121 <= elapsedTime_of 10150.
Proof.
  apply (proj2 (proj2 (elapsedTime_of_bounds 10121 10150))). lia.
Defined.

Lemma bad_status_settles_iff_witness :
  let s' := fst (on_completion Object_prototype "k1" (cfg false) startTime
                               (Response 404 "Not Found" (NotJson "<html>"))
                               1700000010120 1700000010121 awaiting) in
  promise s' = None /\ timer s' = true.
Proof.
  apply (bad_status_settles_iff Object_prototype "k1" (cfg false) startTime
           404 "Not Found" (NotJson "<html>") 1700000010120 1700000010121 awaiting).
  - reflexivity.
  - simpl. lia.
  - lia.
  - reflexivity.
Defined.



Lemma success_comes_from_fetched_message_witness :
  exists sc sm messages message clock1 clock2,
    In (Completed (Response sc sm (Json messages)) clock1 clock2)
       [Tick 1700000010003;
        Completed (carrying on_the_limits) 1700000010120 1700000010121]
    /\ (200 <= sc < 300)%Z
    /\ get Object_prototype messages "k1" = Normal message
    /\ truthy message = true
    /\ invalid_structure Object_prototype message = false
    /\ prop Object_prototype message "type" = VStr "t"
    /\ VStr "X" = prop Object_prototype message "data"
    /\ VObj [("timestamp", VNum 1699999950); ("expiration", VNum 60)]
       = prop Object_prototype message "meta"
    /\ elapsedTime_of 10121 = elapsedTime_of (clock2 - startTime).
Proof.
  apply (proj1 (success_comes_from_fetched_message Object_prototype "k1" (cfg false)
                  startTime
                  [Tick 1700000010003;
                   Completed (carrying on_the_limits) 1700000010120 1700000010121]
                  _ _ _ 1%Z eq_refl)).
Defined.

Lemma rejection_comes_from_critical_error_witness :
  exists n clock1 clock2 m,
    In (Completed n clock1 clock2)
       [Tick 1700000010003;
        Completed (Response 200 "OK" (NotJson "Unexpected end of JSON input"))
                  1700000010120 1700000010121]
    /\ fst (attempt Object_prototype "k1" (cfg false) n clock1) = Raised m
    /\ critical m = true
    /\ "Erro ao processar resposta: Unexpected end of JSON input"
       = "Erro ao processar resposta: " ++ m.
Proof.
  apply (rejection_comes_from_critical_error Object_prototype "k1" (cfg false) startTime).
  reflexivity.
Defined.

Lemma timeout_reports_the_budget_witness :
  timeout (cfg false) - (1 # 20) < elapsedTime_of 120004.
Proof.
  apply (timeout_reports_the_budget Object_prototype "k1" (cfg false) startTime
           [Tick 1700000010003; Tick 1700000120004] _ 1%Z).
  reflexivity.
Defined.

Lemma data_does_not_decide_witness :
  let completes (d : value) :=
    fst (on_completion Object_prototype "k1" (cfg false) startTime
                       (carrying (envelope d 1700000010 300))
                       1700000010120 1700000010121 awaiting) in
  promise (completes (VStr "X"))
  = Some (Resolved (Success (VStr "X")
                            (VObj [("timestamp", VNum 1700000010); ("expiration", VNum 300)])
                            (elapsedTime_of 10121) 1))
  /\ promise (completes (VNum 7))
     = Some (Resolved (Success (VNum 7)
                               (VObj [("timestamp", VNum 1700000010); ("expiration", VNum 300)])
                               (elapsedTime_of 10121) 1)).
Proof.
  destruct (data_does_not_decide Object_prototype "k1" (cfg false) startTime awaiting
              200 "OK"
              (VObj [("k1", envelope (VStr "X") 1700000010 300)])
              (VObj [("k1", envelope (VNum 7) 1700000010 300)])
              (VStr "t") (VStr "X") (VNum 7)
              (VObj [("timestamp", VNum 1700000010); ("expiration", VNum 300)])
              1700000010120 1700000010121)
    as [(N & _)|F].
  - reflexivity.
  - simpl. lia.
  - lia.
  - reflexivity.
  - reflexivity.
  - reflexivity.
  - reflexivity.
  - discriminate N.
  - exact F.
Defined.

Lemma debug_leaves_the_outcome_witness :
  promise (fst (run Object_prototype "k1" (set_debug true (cfg false)) startTime
                    [Tick 1700000010003;
                     Completed (carrying on_the_limits) 1700000010120 1700000010121]
                    initial))
  = promise (fst (run Object_prototype "k1" (set_debug false (cfg false)) startTime
                      [Tick 1700000010003;
                       Completed (carrying on_the_limits) 1700000010120 1700000010121]
                      initial)).
Proof.
  apply (debug_leaves_the_outcome Object_prototype "k1" (cfg false) startTime).
  reflexivity.
Defined.

End Further.

(** ** The time checks, in the numbers of the program *)

Module Binary64Facts.
Import Binary64.

Lemma compare_antisym (a b : double) :
  SFcompare a b = option_map CompOpp (SFcompare b a).
Proof.
  destruct a as [sa|sa| |sa ma ea], b as [sb|sb| |sb mb eb]; simpl;
    try reflexivity; try (destruct sa; reflexivity); try (destruct sb; reflexivity);
    destruct sa, sb; simpl; try reflexivity;
    rewrite (Z.compare_antisym eb ea); destruct (eb ?= ea)%Z; simpl;
    try reflexivity; rewrite (ZC4 ma mb); now rewrite ?CompOpp_involutive.
Qed.

Lemma compare_defined (a b : double) :
  is_nan a = false -> is_nan b = false -> SFcompare a b <> None.
Proof.
  destruct a, b; simpl; intros; try discriminate;
    repeat match goal with s : bool |- _ => destruct s end; discriminate.
Qed.

(** Away from NaN, a comparison that fails is the opposite comparison
    that holds. *)
Lemma not_ltb_leb (a b : double) :
  is_nan a = false -> is_nan b = false ->
  (ltb b a = false <-> leb a b = true).
Proof.
  intros A B. pose proof (compare_defined b a B A) as D.
  unfold ltb, leb, SFltb, SFleb. rewrite (compare_antisym a b).
  destruct (SFcompare b a) as [[| |]|]; simpl; split; congruence.
Qed.

Lemma add_not_nan (x y : double) :
  is_nan (add x y) = false -> is_nan x = false /\ is_nan y = false.
Proof.
  destruct x, y; simpl; auto; discriminate.
Qed.

Lemma sub_not_nan (x y : double) :
  is_nan (sub x y) = false -> is_nan x = false /\ is_nan y = false.
Proof.
  destruct x, y; simpl; auto; discriminate.
Qed.

Lemma not_neq_is_the_string (v : value) (s : string) :
  strict_neq_string v s = false <-> v = VStr s.
Proof.
  destruct v; simpl; split; intro H; try discriminate.
  - apply negb_false_iff, String.eqb_eq in H. now subst.
  - injection H as ->. now rewrite String.eqb_refl.
Qed.

Section Call.

Variable proto : value -> string -> value.
Variable key : string.
Variable cfg : config.
Variable startTime : Z.

Local Abbreviation get := (get proto).
Local Abbreviation prop := (prop proto).
Local Abbreviation invalid_structure := (invalid_structure proto).
Local Abbreviation timestamp_of := (timestamp_of proto).
Local Abbreviation expiration_of := (expiration_of proto).
Local Abbreviation examine := (examine proto cfg).
Local Abbreviation attempt := (attempt proto key cfg).
Local Abbreviation on_completion := (on_completion proto key cfg startTime).
Local Abbreviation acceptable := (acceptable proto cfg).

(** What the checks of [examine] come to, whatever the numbers: the
    negated comparisons of lines 138 and 147. *)
Lemma examine_verdict (clock : Z) (message : value) :
  invalid_structure message = false ->
  fst (examine clock message)
  = if negb (strict_neq_string (prop message "type") (type cfg))
       && negb (ltb (add (timestamp_of message) (expiration_of message)) (now_of clock))
       && negb (ltb (timestamp_of message) (sub (now_of clock) (retroBack cfg)))
    then Found (prop message "data") (prop message "meta")
    else Continue.
Proof.
  intros V. unfold Binary64.examine. rewrite V.
  destruct (strict_neq_string _ _); [reflexivity|].
  destruct (ltb (add _ _) _); [reflexivity|].
  destruct (ltb _ (sub _ _)); reflexivity.
Qed.

Lemma attempt_examines_doubles
    (sc : Z) (sm : string) (messages message : value) (clock : Z) :
  (200 <= sc < 300)%Z ->
  get messages key = Js.Normal message ->
  truthy message = true ->
  fst (attempt (Response sc sm (Json messages)) clock) = fst (examine clock message).
Proof.
  intros Hsc Hget Ht. unfold Binary64.attempt.
  cbn [makeHttpRequest].
  replace ((200 <=? sc)%Z && (sc <? 300)%Z) with true
    by (symmetry; apply andb_true_iff; split; [apply Z.leb_le | apply Z.ltb_lt]; lia).
  cbn [JSON_parse].
  assert (Hk : Object_keys messages = Js.Normal tt)
    by (destruct messages; simpl in *; try discriminate; reflexivity).
  rewrite Hget, Ht. cbn [negb].
  destruct (debug cfg); [rewrite Hk|];
    destruct (Binary64.examine proto cfg clock message); reflexivity.
Qed.

Lemma completion_of_verdict (s : state) (n : network) (clock1 clock2 : Z) :
  promise s = None -> pending s <> O ->
  let s' := fst (on_completion n clock1 clock2 s) in
  match fst (attempt n clock1) with
  | Found data meta =>
      promise s'
      = Some (Resolved (Success data meta
                                (HttpPubSub.elapsedTime_of (clock2 - startTime))
                                (attempts s)))
      /\ timer s' = false
  | Continue => promise s' = None /\ timer s' = timer s
  | Raised _ => True
  end.
Proof.
  intros P Q. unfold Binary64.on_completion.
  destruct (pending s) as [|p]; [congruence|].
  destruct (Binary64.attempt proto key cfg n clock1) as [[|data meta|m] out]; simpl;
    trivial.
  - auto.
  - unfold settle. simpl. rewrite P. simpl. auto.
Qed.


End Call.



End Binary64Facts.
